(** * NeonGame: the arena-survival simulation of [src/components/NeonGame.tsx]

    The simulation is embedded once, parametric in the arithmetic of the
    JavaScript [number] type (class [Number]) and in the host's [Math]
    object (record [Host]).  Two number systems are provided:

    - [binary64]: IEEE 754 double precision (the kernel's primitive floats),
      which is what a JavaScript engine computes with; it is used to run
      the game on concrete inputs;
    - [exact]: the real numbers, used for the statements the specification
      makes "over the reals".

    Quantities that the program only ever holds as integers (score, health,
    cooldown, wave timer, frame count, viewport size) are modelled in [Z]. *)

From Stdlib Require Import ZArith Reals Lra Lia Floats.
From stdpp Require Import base list strings gmap.

Set Default Proof Using "Type".
Open Scope Z_scope.

(** ** Numbers *)

Declare Scope num_scope.
Delimit Scope num_scope with num.

(** The operations of JavaScript numbers that the game uses. *)
Class Number (A : Type) := {
  ofZ : Z -> A;                 (* an integer literal or integer-valued field *)
  nadd : A -> A -> A;
  nsub : A -> A -> A;
  nmul : A -> A -> A;
  ndiv : A -> A -> A;
  nsqrt : A -> A;               (* Math.sqrt *)
  nltb : A -> A -> bool;        (* a < b *)
  nleb : A -> A -> bool;        (* a <= b *)
  neqb : A -> A -> bool;        (* a === b *)
  nmin : A -> A -> A;           (* Math.min *)
  nmax : A -> A -> A;           (* Math.max *)
  nfloor : A -> A;              (* Math.floor *)
}.

Infix "+" := nadd : num_scope.
Infix "-" := nsub : num_scope.
Infix "*" := nmul : num_scope.
Infix "/" := ndiv : num_scope.
Infix "<?" := nltb : num_scope.
Infix "<=?" := nleb : num_scope.
Infix "=?" := neqb : num_scope.
Notation "a >? b" := (nltb b a) (only parsing) : num_scope.

(** A decimal literal [n/d], such as [0.8 = 8/10].  Both parts are small
    integers; in binary64 the correctly rounded quotient is the double that
    the literal denotes. *)
Definition lit {A} `{Number A} (n d : Z) : A := (ofZ n / ofZ d)%num.

(** The host's [Math] object.  [Math_random k] is the value returned by the
    [k]-th call of [Math.random()] since the page was loaded. *)
Record Host (A : Type) := {
  Math_PI : A;
  Math_cos : A -> A;
  Math_sin : A -> A;
  Math_atan2 : A -> A -> A;
  Math_random : nat -> A;
}.
Arguments Math_PI {A} _.
Arguments Math_cos {A} _ _.
Arguments Math_sin {A} _ _.
Arguments Math_atan2 {A} _ _ _.
Arguments Math_random {A} _ _.

(** *** IEEE 754 binary64 *)

Module F64.

Definition of_Z (z : Z) : float := SF2Prim (binary_normalize prec emax z 0 false).

(* Largest integer not above a finite [f]; the other values are returned
   as they are, like Math.floor does. *)
Definition floor (f : float) : float :=
  match Prim2SF f with
  | S754_finite s m e =>
      let v := if s then Z.neg m else Z.pos m in
      of_Z (if (0 <=? e)%Z then Z.shiftl v e else Z.shiftr v (- e))
  | _ => f
  end.

Definition is_neg_zero (f : float) : bool :=
  match Prim2SF f with S754_zero true => true | _ => false end.

(* Math.min and Math.max: NaN if either argument is NaN, and -0 < +0. *)
Definition min (a b : float) : float :=
  if (PrimFloat.is_nan a || PrimFloat.is_nan b)%bool then PrimFloat.nan
  else if PrimFloat.ltb a b then a
  else if PrimFloat.ltb b a then b
  else if is_neg_zero a then a else b.

Definition max (a b : float) : float :=
  if (PrimFloat.is_nan a || PrimFloat.is_nan b)%bool then PrimFloat.nan
  else if PrimFloat.ltb a b then b
  else if PrimFloat.ltb b a then a
  else if is_neg_zero a then b else a.

End F64.

#[export] Instance binary64 : Number float := {
  ofZ := F64.of_Z;
  nadd := PrimFloat.add;
  nsub := PrimFloat.sub;
  nmul := PrimFloat.mul;
  ndiv := PrimFloat.div;
  nsqrt := PrimFloat.sqrt;
  nltb := PrimFloat.ltb;
  nleb := PrimFloat.leb;
  neqb := PrimFloat.eqb;
  nmin := F64.min;
  nmax := F64.max;
  nfloor := F64.floor;
}.

(** *** Real numbers *)

Module Exact.

Definition ltb (a b : R) : bool := if Rlt_dec a b then true else false.
Definition leb (a b : R) : bool := if Rle_dec a b then true else false.
Definition eqb (a b : R) : bool := if Req_dec_T a b then true else false.
Definition floor (a : R) : R := IZR (Int_part a).

End Exact.

#[export] Instance exact : Number R := {
  ofZ := IZR;
  nadd := Rplus;
  nsub := Rminus;
  nmul := Rmult;
  ndiv := Rdiv;
  nsqrt := R_sqrt.sqrt;
  nltb := Exact.ltb;
  nleb := Exact.leb;
  neqb := Exact.eqb;
  nmin := Rmin;
  nmax := Rmax;
  nfloor := Exact.floor;
}.

(** ** Data model *)

Module Vector2.
Record t (A : Type) := mk { x : A; y : A }.
Arguments mk {A} _ _.
Arguments x {A} _.
Arguments y {A} _.
End Vector2.
Abbreviation Vector2 := Vector2.t.

Inductive EntityType := PLAYER | ZOMBIE_FAST | ZOMBIE_TANK | BULLET | PARTICLE.

#[export] Instance EntityType_eq_dec : EqDecision EntityType.
Proof. solve_decision. Defined.

(* ent.type.startsWith('ZOMBIE') *)
Definition startsWithZOMBIE (ty : EntityType) : bool :=
  match ty with ZOMBIE_FAST | ZOMBIE_TANK => true | _ => false end.

(* ent.type === 'BULLET' *)
Definition isBULLET (ty : EntityType) : bool :=
  match ty with BULLET => true | _ => false end.

Module Entity.
(* [id] is [Math.random().toString()]: the number drawn stands for its
   printed form. *)
Record t (A : Type) := mk {
  id : A;
  type : EntityType;
  pos : Vector2 A;
  vel : Vector2 A;
  radius : A;
  color : string;
  life : A;
  maxLife : A;
  angle : A;
  markedForDeletion : bool;
}.
Arguments mk {A}.
Arguments id {A} _.
Arguments type {A} _.
Arguments pos {A} _.
Arguments vel {A} _.
Arguments radius {A} _.
Arguments color {A} _.
Arguments life {A} _.
Arguments maxLife {A} _.
Arguments angle {A} _.
Arguments markedForDeletion {A} _.

Definition with_pos {A} (p : Vector2 A) (e : t A) : t A :=
  mk (id e) (type e) p (vel e) (radius e) (color e) (life e) (maxLife e)
     (angle e) (markedForDeletion e).
Definition with_vel {A} (v : Vector2 A) (e : t A) : t A :=
  mk (id e) (type e) (pos e) v (radius e) (color e) (life e) (maxLife e)
     (angle e) (markedForDeletion e).
Definition with_life {A} (l : A) (e : t A) : t A :=
  mk (id e) (type e) (pos e) (vel e) (radius e) (color e) l (maxLife e)
     (angle e) (markedForDeletion e).
Definition with_angle {A} (a : A) (e : t A) : t A :=
  mk (id e) (type e) (pos e) (vel e) (radius e) (color e) (life e) (maxLife e)
     a (markedForDeletion e).
Definition with_markedForDeletion {A} (b : bool) (e : t A) : t A :=
  mk (id e) (type e) (pos e) (vel e) (radius e) (color e) (life e) (maxLife e)
     (angle e) b.
End Entity.
Abbreviation Entity := Entity.t.

Module Player.
Record t (A : Type) := mk {
  pos : Vector2 A;
  vel : Vector2 A;
  angle : A;
  cooldown : Z;
  maxHealth : Z;
  currHealth : Z;
  recoil : A;
}.
Arguments mk {A}.
Arguments pos {A} _.
Arguments vel {A} _.
Arguments angle {A} _.
Arguments cooldown {A} _.
Arguments maxHealth {A} _.
Arguments currHealth {A} _.
Arguments recoil {A} _.

Definition with_pos {A} (p : Vector2 A) (s : t A) : t A :=
  mk p (vel s) (angle s) (cooldown s) (maxHealth s) (currHealth s) (recoil s).
Definition with_vel {A} (v : Vector2 A) (s : t A) : t A :=
  mk (pos s) v (angle s) (cooldown s) (maxHealth s) (currHealth s) (recoil s).
Definition with_angle {A} (a : A) (s : t A) : t A :=
  mk (pos s) (vel s) a (cooldown s) (maxHealth s) (currHealth s) (recoil s).
Definition with_cooldown {A} (c : Z) (s : t A) : t A :=
  mk (pos s) (vel s) (angle s) c (maxHealth s) (currHealth s) (recoil s).
Definition with_currHealth {A} (h : Z) (s : t A) : t A :=
  mk (pos s) (vel s) (angle s) (cooldown s) (maxHealth s) h (recoil s).
Definition with_recoil {A} (r : A) (s : t A) : t A :=
  mk (pos s) (vel s) (angle s) (cooldown s) (maxHealth s) (currHealth s) r.
End Player.

Module Mouse.
Record t (A : Type) := mk { x : A; y : A; down : bool }.
Arguments mk {A}.
Arguments x {A} _.
Arguments y {A} _.
Arguments down {A} _.
End Mouse.

Module Camera.
Record t (A : Type) := mk { x : A; y : A; shake : A }.
Arguments mk {A}.
Arguments x {A} _.
Arguments y {A} _.
Arguments shake {A} _.
End Camera.

(** The object held by the [gameState] ref. *)
Module GameState.
Record t (A : Type) := mk {
  player : Player.t A;
  entities : list (Entity A);
  particles : list (Entity A);
  keys : gset string;
  mouse : Mouse.t A;
  camera : Camera.t A;
  waveTimer : Z;
  score : Z;
  isRunning : bool;
  frameCount : Z;
}.
Arguments mk {A}.
Arguments player {A} _.
Arguments entities {A} _.
Arguments particles {A} _.
Arguments keys {A} _.
Arguments mouse {A} _.
Arguments camera {A} _.
Arguments waveTimer {A} _.
Arguments score {A} _.
Arguments isRunning {A} _.
Arguments frameCount {A} _.

Definition with_player {A} (p : Player.t A) (s : t A) : t A :=
  mk p (entities s) (particles s) (keys s) (mouse s) (camera s)
     (waveTimer s) (score s) (isRunning s) (frameCount s).
Definition with_entities {A} (l : list (Entity A)) (s : t A) : t A :=
  mk (player s) l (particles s) (keys s) (mouse s) (camera s)
     (waveTimer s) (score s) (isRunning s) (frameCount s).
Definition with_particles {A} (l : list (Entity A)) (s : t A) : t A :=
  mk (player s) (entities s) l (keys s) (mouse s) (camera s)
     (waveTimer s) (score s) (isRunning s) (frameCount s).
Definition with_keys {A} (k : gset string) (s : t A) : t A :=
  mk (player s) (entities s) (particles s) k (mouse s) (camera s)
     (waveTimer s) (score s) (isRunning s) (frameCount s).
Definition with_mouse {A} (m : Mouse.t A) (s : t A) : t A :=
  mk (player s) (entities s) (particles s) (keys s) m (camera s)
     (waveTimer s) (score s) (isRunning s) (frameCount s).
Definition with_camera {A} (c : Camera.t A) (s : t A) : t A :=
  mk (player s) (entities s) (particles s) (keys s) (mouse s) c
     (waveTimer s) (score s) (isRunning s) (frameCount s).
Definition with_waveTimer {A} (n : Z) (s : t A) : t A :=
  mk (player s) (entities s) (particles s) (keys s) (mouse s) (camera s)
     n (score s) (isRunning s) (frameCount s).
Definition with_score {A} (n : Z) (s : t A) : t A :=
  mk (player s) (entities s) (particles s) (keys s) (mouse s) (camera s)
     (waveTimer s) n (isRunning s) (frameCount s).
Definition with_isRunning {A} (b : bool) (s : t A) : t A :=
  mk (player s) (entities s) (particles s) (keys s) (mouse s) (camera s)
     (waveTimer s) (score s) b (frameCount s).
Definition with_frameCount {A} (n : Z) (s : t A) : t A :=
  mk (player s) (entities s) (particles s) (keys s) (mouse s) (camera s)
     (waveTimer s) (score s) (isRunning s) n.
End GameState.
Abbreviation GameState := GameState.t.

(** The component's React state, read by the HUD. *)
Module Hud.
Record t := mk { score : Z; health : Z; gameOver : bool; wave : Z }.
End Hud.

(** What one pass of the drawing code reads; the individual canvas calls
    are not modelled. *)
Module Scene.
Record t (A : Type) := mk {
  shakeX : A;
  shakeY : A;
  particles : list (Entity A);
  entities : list (Entity A);
  player : Player.t A;
  lowHealthOverlay : bool;
}.
Arguments mk {A}.
End Scene.

(** Everything a frame or an event handler can read or write: the
    [gameState] ref, the React state, the canvas size (kept equal to the
    window's inner size by [handleResize]), the number of [Math.random()]
    calls made so far, and the frames drawn on the canvas, oldest first. *)
Module World.
Record t (A : Type) := mk {
  gameState : GameState A;
  hud : Hud.t;
  width : Z;
  height : Z;
  randomCalls : nat;
  drawn : list (Scene.t A);
}.
Arguments mk {A}.
Arguments gameState {A} _.
Arguments hud {A} _.
Arguments width {A} _.
Arguments height {A} _.
Arguments randomCalls {A} _.
Arguments drawn {A} _.

Definition with_gameState {A} (g : GameState A) (w : t A) : t A :=
  mk g (hud w) (width w) (height w) (randomCalls w) (drawn w).
Definition with_hud {A} (h : Hud.t) (w : t A) : t A :=
  mk (gameState w) h (width w) (height w) (randomCalls w) (drawn w).
Definition with_size {A} (wd ht : Z) (w : t A) : t A :=
  mk (gameState w) (hud w) wd ht (randomCalls w) (drawn w).
Definition with_randomCalls {A} (n : nat) (w : t A) : t A :=
  mk (gameState w) (hud w) (width w) (height w) n (drawn w).
Definition with_drawn {A} (d : list (Scene.t A)) (w : t A) : t A :=
  mk (gameState w) (hud w) (width w) (height w) (randomCalls w) d.
End World.
Abbreviation World := World.t.

(* The field updates unfold as soon as they are applied. *)
Arguments Entity.with_pos {A} _ _ /.
Arguments Entity.with_vel {A} _ _ /.
Arguments Entity.with_life {A} _ _ /.
Arguments Entity.with_angle {A} _ _ /.
Arguments Entity.with_markedForDeletion {A} _ _ /.
Arguments Player.with_pos {A} _ _ /.
Arguments Player.with_vel {A} _ _ /.
Arguments Player.with_angle {A} _ _ /.
Arguments Player.with_cooldown {A} _ _ /.
Arguments Player.with_currHealth {A} _ _ /.
Arguments Player.with_recoil {A} _ _ /.
Arguments GameState.with_player {A} _ _ /.
Arguments GameState.with_entities {A} _ _ /.
Arguments GameState.with_particles {A} _ _ /.
Arguments GameState.with_keys {A} _ _ /.
Arguments GameState.with_mouse {A} _ _ /.
Arguments GameState.with_camera {A} _ _ /.
Arguments GameState.with_waveTimer {A} _ _ /.
Arguments GameState.with_score {A} _ _ /.
Arguments GameState.with_isRunning {A} _ _ /.
Arguments GameState.with_frameCount {A} _ _ /.
Arguments World.with_gameState {A} _ _ /.
Arguments World.with_hud {A} _ _ /.
Arguments World.with_size {A} _ _ _ /.
Arguments World.with_randomCalls {A} _ _ /.
Arguments World.with_drawn {A} _ _ /.

(** ** Constants *)

Definition PLAYER_COLOR : string := "#00ffff".
Definition BULLET_COLOR : string := "#ffff00".
Definition ZOMBIE_FAST_COLOR : string := "#ff0055".
Definition ZOMBIE_TANK_COLOR : string := "#aa00ff".
Definition BLOOD_COLOR_1 : string := "#00ff00".
Definition BLOOD_COLOR_2 : string := "#ff0055".
Definition MUZZLE_COLOR : string := "#ffffaa".
Definition FIRERATE : Z := 8.

(** The spawn interval of a tick.  [score] is an integer, so
    [Math.floor(score / 500)] is the floored quotient [score / 500] of [Z]. *)
Definition spawnRate (score : Z) : Z := Z.max 20 (100 - (score / 500) * 5).

(** ** The simulation *)

Section Simulation.

Context {A : Type} {N : Number A}.
Variable host : Host A.

Local Open Scope num_scope.

Local Notation "# z" := (ofZ z%Z) (at level 1, format "# z").

Definition FRICTION : A := lit 9 10.
Definition BULLET_SPEED : A := #18.

(** *** Helper functions *)

Definition vecAdd (v1 v2 : Vector2 A) : Vector2 A :=
  Vector2.mk (Vector2.x v1 + Vector2.x v2) (Vector2.y v1 + Vector2.y v2).
Definition vecSub (v1 v2 : Vector2 A) : Vector2 A :=
  Vector2.mk (Vector2.x v1 - Vector2.x v2) (Vector2.y v1 - Vector2.y v2).
Definition vecMult (v : Vector2 A) (s : A) : Vector2 A :=
  Vector2.mk (Vector2.x v * s) (Vector2.y v * s).
Definition vecLen (v : Vector2 A) : A :=
  nsqrt (Vector2.x v * Vector2.x v + Vector2.y v * Vector2.y v).
Definition vecNorm (v : Vector2 A) : Vector2 A :=
  let len := vecLen v in
  if len =? #0 then Vector2.mk #0 #0
  else Vector2.mk (Vector2.x v / len) (Vector2.y v / len).

(* The particle built by one iteration of the loop of createParticle
   when [k] calls of Math.random have been made before it: six more
   calls, in the order in which the source evaluates them. *)
Definition newParticle (pos : Vector2 A) (color : string) (speed lifeBase : A)
    (k : nat) : Entity A :=
  let angle := Math_random host k * Math_PI host * #2 in
  let spd := Math_random host (k + 1)%nat * speed in
  Entity.mk
    (Math_random host (k + 2)%nat)
    PARTICLE
    pos
    (Vector2.mk (Math_cos host angle * spd) (Math_sin host angle * spd))
    (Math_random host (k + 3)%nat * #3 + #1)
    color
    (lifeBase + Math_random host (k + 4)%nat * #30)
    (lifeBase + #30)
    (Math_random host (k + 5)%nat * Math_PI host * #2)
    false.

Definition pushParticle (pos : Vector2 A) (color : string) (speed lifeBase : A)
    (w : World A) : World A :=
  let k := World.randomCalls w in
  let gs := World.gameState w in
  World.with_randomCalls (k + 6)%nat
    (World.with_gameState
       (GameState.with_particles
          (GameState.particles gs ++ [newParticle pos color speed lifeBase k]) gs) w).

Fixpoint createParticle (pos : Vector2 A) (count : nat) (color : string)
    (speed lifeBase : A) (w : World A) : World A :=
  match count with
  | O => w
  | S n => createParticle pos n color speed lifeBase
             (pushParticle pos color speed lifeBase w)
  end.

Definition addTrauma (amount : A) (gs : GameState A) : GameState A :=
  let c := GameState.camera gs in
  GameState.with_camera
    (Camera.mk (Camera.x c) (Camera.y c) (nmin (Camera.shake c + amount) #25)) gs.

Definition setScore (n : Z) (h : Hud.t) : Hud.t :=
  Hud.mk n (Hud.health h) (Hud.gameOver h) (Hud.wave h).
Definition setHealth (n : Z) (h : Hud.t) : Hud.t :=
  Hud.mk (Hud.score h) n (Hud.gameOver h) (Hud.wave h).
Definition setGameOver (b : bool) (h : Hud.t) : Hud.t :=
  Hud.mk (Hud.score h) (Hud.health h) b (Hud.wave h).
Definition setWave (n : Z) (h : Hud.t) : Hud.t :=
  Hud.mk (Hud.score h) (Hud.health h) (Hud.gameOver h) n.

(* window.innerWidth / 2, window.innerHeight / 2 *)
Definition centre (w : World A) : Vector2 A :=
  Vector2.mk (#(World.width w) / #2) (#(World.height w) / #2).

Definition restartGame (w : World A) : World A :=
  let gs := World.gameState w in
  let gs := GameState.with_player
              (Player.with_pos (centre w) (GameState.player gs)) gs in
  let gs := GameState.with_player
              (Player.with_currHealth 100 (GameState.player gs)) gs in
  let gs := GameState.with_entities [] gs in
  let gs := GameState.with_particles [] gs in
  let gs := GameState.with_score 0 gs in
  let gs := GameState.with_waveTimer 0 gs in
  let gs := GameState.with_isRunning true gs in
  World.with_hud
    (setWave 1 (setGameOver false (setHealth 100 (setScore 0 (World.hud w)))))
    (World.with_gameState gs w).

(** *** Mounting and the event handlers *)

(* The initial value of the ref and of the React state. *)
Definition initialGameState : GameState A :=
  GameState.mk
    (Player.mk (Vector2.mk #0 #0) (Vector2.mk #0 #0) #0 0 100 100 #0)
    [] [] ∅
    (Mouse.mk #0 #0 false)
    (Camera.mk #0 #0 #0)
    0 0 true 0.

Definition initialHud : Hud.t := Hud.mk 0 100 false 1.

Definition handleResize (wd ht : Z) (w : World A) : World A :=
  let w := World.with_size wd ht w in
  let gs := World.gameState w in
  if (GameState.frameCount gs =? 0)%Z then
    World.with_gameState
      (GameState.with_player
         (Player.with_pos (centre w) (GameState.player gs)) gs) w
  else w.

(* The effect run on mount, in a window of the given inner size. *)
Definition mount (wd ht : Z) : World A :=
  handleResize wd ht (World.mk initialGameState initialHud wd ht O []).

Definition handleKeyDown (code : string) (w : World A) : World A :=
  let gs := World.gameState w in
  World.with_gameState (GameState.with_keys ({[code]} ∪ GameState.keys gs) gs) w.
Definition handleKeyUp (code : string) (w : World A) : World A :=
  let gs := World.gameState w in
  World.with_gameState (GameState.with_keys (GameState.keys gs ∖ {[code]}) gs) w.
Definition handleMouseMove (cx cy : A) (w : World A) : World A :=
  let gs := World.gameState w in
  World.with_gameState
    (GameState.with_mouse (Mouse.mk cx cy (Mouse.down (GameState.mouse gs))) gs) w.
Definition handleMouseDown (w : World A) : World A :=
  let gs := World.gameState w in
  let m := GameState.mouse gs in
  World.with_gameState (GameState.with_mouse (Mouse.mk (Mouse.x m) (Mouse.y m) true) gs) w.
Definition handleMouseUp (w : World A) : World A :=
  let gs := World.gameState w in
  let m := GameState.mouse gs in
  World.with_gameState (GameState.with_mouse (Mouse.mk (Mouse.x m) (Mouse.y m) false) gs) w.

(** *** The game loop: update *)

(* state.keys.has(code) *)
Definition keyHeld (code : string) (gs : GameState A) : bool :=
  bool_decide (code ∈ GameState.keys gs).

(* Player movement and bounds checking. *)
Definition movePlayer (wd ht : Z) (gs : GameState A) : GameState A :=
  let move := Vector2.mk #0 #0 in
  let move := if keyHeld "KeyW" gs
              then Vector2.mk (Vector2.x move) (Vector2.y move - #1) else move in
  let move := if keyHeld "KeyS" gs
              then Vector2.mk (Vector2.x move) (Vector2.y move + #1) else move in
  let move := if keyHeld "KeyA" gs
              then Vector2.mk (Vector2.x move - #1) (Vector2.y move) else move in
  let move := if keyHeld "KeyD" gs
              then Vector2.mk (Vector2.x move + #1) (Vector2.y move) else move in
  let moveDir := vecNorm move in
  let p := GameState.player gs in
  let p := Player.with_vel (vecAdd (Player.vel p) (vecMult moveDir (lit 8 10))) p in
  let p := Player.with_vel (vecMult (Player.vel p) FRICTION) p in
  let p := Player.with_pos (vecAdd (Player.pos p) (Player.vel p)) p in
  let p := Player.with_pos
             (Vector2.mk (nmax #20 (nmin (#wd - #20) (Vector2.x (Player.pos p))))
                         (Vector2.y (Player.pos p))) p in
  let p := Player.with_pos
             (Vector2.mk (Vector2.x (Player.pos p))
                         (nmax #20 (nmin (#ht - #20) (Vector2.y (Player.pos p))))) p in
  GameState.with_player p gs.

(* Player aim. *)
Definition aimPlayer (gs : GameState A) : GameState A :=
  let p := GameState.player gs in
  let dx := Mouse.x (GameState.mouse gs) - Vector2.x (Player.pos p) in
  let dy := Mouse.y (GameState.mouse gs) - Vector2.y (Player.pos p) in
  GameState.with_player (Player.with_angle (Math_atan2 host dy dx) p) gs.

(* if (state.player.cooldown > 0) state.player.cooldown--; *)
Definition coolDown (gs : GameState A) : GameState A :=
  let p := GameState.player gs in
  if (0 <? Player.cooldown p)%Z
  then GameState.with_player (Player.with_cooldown (Player.cooldown p - 1)%Z p) gs
  else gs.

Definition newBullet (ident : A) (muzzlePos bulletVel : Vector2 A) (angle : A)
    : Entity A :=
  Entity.mk ident BULLET muzzlePos bulletVel #3 BULLET_COLOR #1 #1 angle false.

(* The body of the shooting branch. *)
Definition fire (w : World A) : World A :=
  let gs := World.gameState w in
  let gs := GameState.with_player
              (Player.with_cooldown FIRERATE (GameState.player gs)) gs in
  let gs := GameState.with_player
              (Player.with_recoil #6 (GameState.player gs)) gs in
  let gs := addTrauma #4 gs in
  let k := World.randomCalls w in
  let spread := (Math_random host k - lit 5 10) * lit 1 10 in
  let angle := Player.angle (GameState.player gs) in
  let bulletVel :=
    Vector2.mk (Math_cos host (angle + spread) * BULLET_SPEED)
               (Math_sin host (angle + spread) * BULLET_SPEED) in
  let muzzlePos :=
    vecAdd (Player.pos (GameState.player gs)) (vecMult (vecNorm bulletVel) #25) in
  let bullet := newBullet (Math_random host (k + 1)%nat) muzzlePos bulletVel angle in
  let gs := GameState.with_entities (GameState.entities gs ++ [bullet]) gs in
  let w := World.with_randomCalls (k + 2)%nat (World.with_gameState gs w) in
  createParticle muzzlePos 3 MUZZLE_COLOR #2 #10 w.

Definition shoot (w : World A) : World A :=
  let w := World.with_gameState (coolDown (World.gameState w)) w in
  let gs := World.gameState w in
  if Mouse.down (GameState.mouse gs)
     && (Player.cooldown (GameState.player gs) <=? 0)%Z
  then fire w else w.

(* if (state.player.recoil > 0) state.player.recoil *= 0.8; *)
Definition decayRecoil (gs : GameState A) : GameState A :=
  let p := GameState.player gs in
  if Player.recoil p >? #0
  then GameState.with_player (Player.with_recoil (Player.recoil p * lit 8 10) p) gs
  else gs.

Definition newZombie (ident : A) (isTank : bool) (spawnPos : Vector2 A) : Entity A :=
  Entity.mk ident
    (if isTank then ZOMBIE_TANK else ZOMBIE_FAST)
    spawnPos
    (Vector2.mk #0 #0)
    (if isTank then #25 else #12)
    (if isTank then ZOMBIE_TANK_COLOR else ZOMBIE_FAST_COLOR)
    (if isTank then #100 else #30)
    (if isTank then #100 else #30)
    #0
    false.

(* The body of the spawning branch. *)
Definition spawnZombie (w : World A) : World A :=
  let k := World.randomCalls w in
  let wd := World.width w in
  let ht := World.height w in
  let side := nfloor (Math_random host k * #4) in
  let r := Math_random host (k + 1)%nat in
  let spawnPos :=
    if side =? #0 then Vector2.mk (r * #wd) #(-50)
    else if side =? #1 then Vector2.mk (#wd + #50) (r * #ht)
    else if side =? #2 then Vector2.mk (r * #wd) (#ht + #50)
    else Vector2.mk #(-50) (r * #ht) in
  let isTank := Math_random host (k + 2)%nat >? lit 85 100 in
  let z := newZombie (Math_random host (k + 3)%nat) isTank spawnPos in
  let gs := World.gameState w in
  World.with_randomCalls (k + 4)%nat
    (World.with_gameState
       (GameState.with_entities (GameState.entities gs ++ [z]) gs) w).

(* Spawning logic (wave system). *)
Definition spawn (w : World A) : World A :=
  let gs := World.gameState w in
  let gs := GameState.with_waveTimer (GameState.waveTimer gs + 1)%Z gs in
  let w := World.with_gameState gs w in
  if (Z.rem (GameState.waveTimer gs) (spawnRate (GameState.score gs)) =? 0)%Z
  then spawnZombie w else w.

(* The speed of an enemy of kind [ty] at the given score. *)
Definition zombieSpeed (ty : EntityType) (score : Z) : A :=
  match ty with
  | ZOMBIE_FAST => lit 25 10 + #score / #5000
  | _ => lit 12 10
  end.

(* The inner forEach of the separation rule: [others] are the entities
   from slot [j] on, [i] is the slot of [ent] itself. *)
Fixpoint separationFrom (i : nat) (ent : Entity A) (j : nat)
    (others : list (Entity A)) (separation : Vector2 A) : Vector2 A :=
  match others with
  | [] => separation
  | other :: rest =>
      let separation :=
        if bool_decide (j ≠ i) && startsWithZOMBIE (Entity.type other) then
          let dist := vecLen (vecSub (Entity.pos ent) (Entity.pos other)) in
          if dist <? Entity.radius ent + Entity.radius other + #10
          then vecAdd separation (vecNorm (vecSub (Entity.pos ent) (Entity.pos other)))
          else separation
        else separation in
      separationFrom i ent (S j) rest separation
  end.

(* The collision of the enemy in slot [i] with the player. *)
Definition touchPlayer (i : nat) (ent : Entity A) (dirToPlayer : Vector2 A)
    (w : World A) : World A :=
  let gs := World.gameState w in
  let gs := GameState.with_player
              (Player.with_currHealth
                 (Player.currHealth (GameState.player gs) - 1)%Z
                 (GameState.player gs)) gs in
  let gs := addTrauma #10 gs in
  let h := setHealth (Player.currHealth (GameState.player gs)) (World.hud w) in
  let ent := Entity.with_vel (vecMult dirToPlayer #(-5)) ent in
  let ent := Entity.with_pos (vecAdd (Entity.pos ent) (Entity.vel ent)) ent in
  let gs := GameState.with_entities (<[i := ent]> (GameState.entities gs)) gs in
  let gs := if (Player.currHealth (GameState.player gs) <=? 0)%Z
            then GameState.with_isRunning false gs else gs in
  World.with_hud h (World.with_gameState gs w).

(* The callback of state.entities.forEach, applied to slot [i]; the
   entity is updated in place, so later slots see its new position. *)
Definition updateEntity (i : nat) (w : World A) : World A :=
  let gs := World.gameState w in
  match GameState.entities gs !! i with
  | None => w
  | Some ent =>
      if isBULLET (Entity.type ent) then
        let ent := Entity.with_pos (vecAdd (Entity.pos ent) (Entity.vel ent)) ent in
        let px := Vector2.x (Entity.pos ent) in
        let py := Vector2.y (Entity.pos ent) in
        let ent :=
          if (px <? #0) || (px >? #(World.width w))
             || (py <? #0) || (py >? #(World.height w))
          then Entity.with_markedForDeletion true ent else ent in
        World.with_gameState
          (GameState.with_entities (<[i := ent]> (GameState.entities gs)) gs) w
      else if startsWithZOMBIE (Entity.type ent) then
        let separation :=
          separationFrom i ent 0 (GameState.entities gs) (Vector2.mk #0 #0) in
        let dirToPlayer :=
          vecNorm (vecSub (Player.pos (GameState.player gs)) (Entity.pos ent)) in
        let speed := zombieSpeed (Entity.type ent) (GameState.score gs) in
        let ent := Entity.with_vel
                     (vecAdd (vecMult dirToPlayer (speed * lit 8 10))
                             (vecMult separation (lit 5 10))) ent in
        let ent := Entity.with_pos (vecAdd (Entity.pos ent) (Entity.vel ent)) ent in
        let ent := Entity.with_angle
                     (Math_atan2 host (Vector2.y dirToPlayer) (Vector2.x dirToPlayer))
                     ent in
        let w := World.with_gameState
                   (GameState.with_entities (<[i := ent]> (GameState.entities gs)) gs)
                   w in
        let distPlayer :=
          vecLen (vecSub (Entity.pos ent) (Player.pos (GameState.player gs))) in
        if distPlayer <? Entity.radius ent + #15
        then touchPlayer i ent dirToPlayer w
        else w
      else w
  end.

(* state.entities.forEach(...): the slots in order. *)
Definition updateEntities (w : World A) : World A :=
  fold_left (fun w i => updateEntity i w)
    (seq 0 (length (GameState.entities (World.gameState w)))) w.

(** *** The game loop: bullets against zombies *)

(* dist < enemy.radius + bullet.radius *)
Definition overlaps (bullet enemy : Entity A) : bool :=
  vecLen (vecSub (Entity.pos bullet) (Entity.pos enemy))
    <? Entity.radius enemy + Entity.radius bullet.

(* The score awarded for killing an enemy of kind [ty]. *)
Definition reward (ty : EntityType) : Z :=
  match ty with ZOMBIE_TANK => 50 | _ => 10 end.

(* The branch taken when the enemy's life is used up. *)
Definition killEnemy (j : nat) (enemy : Entity A) (w : World A) : World A :=
  let enemy := Entity.with_markedForDeletion true enemy in
  let gs := World.gameState w in
  let gs := GameState.with_entities (<[j := enemy]> (GameState.entities gs)) gs in
  let gs := addTrauma #8 gs in
  let gs := GameState.with_score
              (GameState.score gs + reward (Entity.type enemy))%Z gs in
  let w := World.with_hud (setScore (GameState.score gs) (World.hud w))
             (World.with_gameState gs w) in
  let w := createParticle (Entity.pos enemy) 15 BLOOD_COLOR_1 #5 #40 w in
  createParticle (Entity.pos enemy) 10 BLOOD_COLOR_2 #4 #30 w.

(* The body of "Hit!": the bullet in slot [i] has met the enemy in slot [j]. *)
Definition hit (i j : nat) (bullet enemy : Entity A) (w : World A) : World A :=
  let gs := World.gameState w in
  let gs := GameState.with_entities
              (<[i := Entity.with_markedForDeletion true bullet]>
                 (GameState.entities gs)) gs in
  let enemy := Entity.with_life (Entity.life enemy - #25) enemy in
  let enemy := Entity.with_pos
                 (vecAdd (Entity.pos enemy)
                         (vecMult (vecNorm (Entity.vel bullet)) #4)) enemy in
  let gs := GameState.with_entities (<[j := enemy]> (GameState.entities gs)) gs in
  let w := World.with_gameState gs w in
  let w := createParticle (Entity.pos enemy) 5 (Entity.color enemy) #3 #10 w in
  if Entity.life enemy <=? #0 then killEnemy j enemy w else w.

(* The inner for-of loop for the bullet in slot [i]: [js] are the slots
   still to be visited.  A hit ends the loop (break). *)
Fixpoint scanEnemies (i : nat) (bullet : Entity A) (js : list nat)
    (w : World A) : World A :=
  match js with
  | [] => w
  | j :: js' =>
      match GameState.entities (World.gameState w) !! j with
      | None => w
      | Some enemy =>
          if negb (startsWithZOMBIE (Entity.type enemy))
             || Entity.markedForDeletion enemy
          then scanEnemies i bullet js' w
          else if overlaps bullet enemy then hit i j bullet enemy w
          else scanEnemies i bullet js' w
      end
  end.

(* One iteration of the outer for-of loop, at slot [i]. *)
Definition bulletStep (i : nat) (w : World A) : World A :=
  let ents := GameState.entities (World.gameState w) in
  match ents !! i with
  | None => w
  | Some bullet =>
      if negb (isBULLET (Entity.type bullet)) || Entity.markedForDeletion bullet
      then w
      else scanEnemies i bullet (seq 0 (length ents)) w
  end.

(* Collision detection: bullets vs zombies. *)
Definition collideBullets (w : World A) : World A :=
  fold_left (fun w i => bulletStep i w)
    (seq 0 (length (GameState.entities (World.gameState w)))) w.

(** *** The game loop: particles, cleanup, drawing *)

Definition updateParticle (p : Entity A) : Entity A :=
  let p := Entity.with_pos (vecAdd (Entity.pos p) (Entity.vel p)) p in
  let p := Entity.with_vel (vecMult (Entity.vel p) (lit 92 100)) p in
  let p := Entity.with_life (Entity.life p - #1) p in
  if Entity.life p <=? #0 then Entity.with_markedForDeletion true p else p.

Definition updateParticles (gs : GameState A) : GameState A :=
  GameState.with_particles (map updateParticle (GameState.particles gs)) gs.

Definition notMarked (e : Entity A) : bool := negb (Entity.markedForDeletion e).

Definition cleanup (gs : GameState A) : GameState A :=
  let gs := GameState.with_entities
              (List.filter notMarked (GameState.entities gs)) gs in
  GameState.with_particles (List.filter notMarked (GameState.particles gs)) gs.

(* The camera-shake calculation followed by the drawing code, which is
   recorded as the scene it reads. *)
Definition draw (w : World A) : World A :=
  let gs := World.gameState w in
  let c := GameState.camera gs in
  let k := World.randomCalls w in
  let '(shakeX, shakeY, w) :=
    if Camera.shake c >? #0 then
      let shakeX := (Math_random host k - lit 5 10) * Camera.shake c * #2 in
      let shakeY := (Math_random host (k + 1)%nat - lit 5 10) * Camera.shake c * #2 in
      let shake := Camera.shake c * lit 9 10 in
      let shake := if shake <? lit 5 10 then #0 else shake in
      (shakeX, shakeY,
       World.with_randomCalls (k + 2)%nat
         (World.with_gameState
            (GameState.with_camera (Camera.mk (Camera.x c) (Camera.y c) shake) gs) w))
    else (#0, #0, w) in
  let gs := World.gameState w in
  let scene :=
    Scene.mk shakeX shakeY (GameState.particles gs) (GameState.entities gs)
      (GameState.player gs)
      (Player.currHealth (GameState.player gs) <? 30)%Z in
  World.with_drawn (World.drawn w ++ [scene]) w.

(** *** The frame callback *)

(* The value of the React state [gameOver] that the callback sees: the
   effect runs once, on mount, so [loop] closes over the first render's
   [gameOver], which is false. *)
Definition capturedGameOver : bool := false.

Definition loop (w : World A) : World A :=
  let gs := World.gameState w in
  if negb (GameState.isRunning gs) then
    if (Player.currHealth (GameState.player gs) <=? 0)%Z && negb capturedGameOver
    then World.with_hud (setGameOver true (World.hud w)) w
    else w
  else
    let gs := GameState.with_frameCount (GameState.frameCount gs + 1)%Z gs in
    let gs := movePlayer (World.width w) (World.height w) gs in
    let gs := aimPlayer gs in
    let w := shoot (World.with_gameState gs w) in
    let w := World.with_gameState (decayRecoil (World.gameState w)) w in
    let w := spawn w in
    let w := updateEntities w in
    let w := collideBullets w in
    let w := World.with_gameState (updateParticles (World.gameState w)) w in
    let w := World.with_gameState (cleanup (World.gameState w)) w in
    draw w.

(** *** Sessions *)

(* What can happen to a mounted component: a browser event, an animation
   frame, or a click on the restart button. *)
Inductive Event :=
| Resize (wd ht : Z)
| KeyDown (code : string)
| KeyUp (code : string)
| MouseMove (cx cy : A)
| MouseDown
| MouseUp
| Frame
| Restart.

Definition step (w : World A) (e : Event) : World A :=
  match e with
  | Resize wd ht => handleResize wd ht w
  | KeyDown code => handleKeyDown code w
  | KeyUp code => handleKeyUp code w
  | MouseMove cx cy => handleMouseMove cx cy w
  | MouseDown => handleMouseDown w
  | MouseUp => handleMouseUp w
  | Frame => loop w
  | Restart => restartGame w
  end.

Definition run (es : list Event) (w : World A) : World A := fold_left step es w.

Definition isRestart (e : Event) : bool :=
  match e with Restart => true | _ => false end.

End Simulation.

(** ** Running the game in binary64 *)

(** A host for concrete runs.  ECMAScript fixes the results of the [Math]
    functions at a few arguments only: [cos(0) = 1], [sin(±0) = ±0] and
    [atan2(±0, x) = ±0] for [x > 0] or [x = +0].  The runs below evaluate the
    functions at these arguments only; elsewhere the table answers NaN.
    [rnd] is the sequence of results of [Math.random()]. *)
Module Table.

Definition is_pos_zero (f : float) : bool :=
  match Prim2SF f with S754_zero false => true | _ => false end.

Definition cos (a : float) : float :=
  if PrimFloat.eqb a 0 then 1%float else PrimFloat.nan.
Definition sin (a : float) : float :=
  if PrimFloat.eqb a 0 then a else PrimFloat.nan.
Definition atan2 (b a : float) : float :=
  if PrimFloat.eqb b 0 && (PrimFloat.ltb 0 a || is_pos_zero a)
  then b else PrimFloat.nan.

Definition host (rnd : nat -> float) : Host float :=
  {| Math_PI := 0x1.921fb54442d18p+1%float;
     Math_cos := cos;
     Math_sin := sin;
     Math_atan2 := atan2;
     Math_random := rnd |}.

End Table.

(** ** Vector normalisation (over the reals) *)

Section Normalise.

Local Open Scope R_scope.

Lemma sum_squares_pos (a b : R) : a <> 0 \/ b <> 0 -> 0 < a * a + b * b.
Proof.
  intros [Ha | Hb].
  - assert (0 < a * a) by (apply Rsqr_pos_lt in Ha; exact Ha).
    assert (0 <= b * b) by apply Rle_0_sqr. lra.
  - assert (0 < b * b) by (apply Rsqr_pos_lt in Hb; exact Hb).
    assert (0 <= a * a) by apply Rle_0_sqr. lra.
Qed.

Lemma nonzero_vector (v : Vector2 R) :
  v <> Vector2.mk 0 0 -> Vector2.x v <> 0 \/ Vector2.y v <> 0.
Proof.
  destruct v as [a b]; simpl. intros Hv.
  destruct (Req_dec_T a 0) as [-> | Ha]; [| by left].
  destruct (Req_dec_T b 0) as [-> | Hb]; [| by right].
  by destruct Hv.
Qed.

Lemma vecLen_pos (v : Vector2 R) : v <> Vector2.mk 0 0 -> 0 < vecLen v.
Proof.
  intros Hv. unfold vecLen; simpl.
  apply sqrt_lt_R0, sum_squares_pos, nonzero_vector, Hv.
Qed.

Lemma vecNorm_nonzero (v : Vector2 R) :
  v <> Vector2.mk 0 0 ->
  vecNorm v = Vector2.mk (Vector2.x v / vecLen v) (Vector2.y v / vecLen v).
Proof.
  intros Hv. pose proof (vecLen_pos v Hv) as Hlen.
  unfold vecNorm, vecLen in *; simpl in *. unfold Exact.eqb.
  destruct (Req_dec_T _ 0) as [E | _]; [lra | reflexivity].
Qed.


End Normalise.

(** ** Spawn interval and enemy speed *)

Lemma spawnRate_floor (score : Z) : 20 <= spawnRate score.
Proof. unfold spawnRate. lia. Qed.

Lemma spawnRate_antitone (s1 s2 : Z) : s1 <= s2 -> spawnRate s2 <= spawnRate s1.
Proof.
  intros Hs. unfold spawnRate.
  assert (s1 / 500 <= s2 / 500) by (apply Z.div_le_mono; lia).
  lia.
Qed.

(** C3. The interval used by the spawning step of every tick is
    [max(20, 100 - 5 * floor(score / 500))]: an enemy is added to the
    entities exactly when the incremented wave timer is a multiple of it.
    As a function of the score the interval never increases and never drops
    below 20. *)
Theorem spawn_interval {A} `{Number A} (host : Host A) :
  (forall score, spawnRate score = Z.max 20 (100 - 5 * (score / 500)))
  /\ (forall w : World A,
        let gs := World.gameState w in
        let iv := Z.max 20 (100 - 5 * (GameState.score gs / 500)) in
        length (GameState.entities (World.gameState (spawn host w)))
        = (length (GameState.entities gs)
           + (if (Z.rem (GameState.waveTimer gs + 1) iv =? 0)%Z then 1 else 0))%nat)
  /\ (forall s1 s2, s1 <= s2 -> spawnRate s2 <= spawnRate s1)
  /\ (forall score, 20 <= spawnRate score).
Proof.
  split; [| split; [| split]].
  - intros score. unfold spawnRate. lia.
  - intros w gs iv. unfold spawn. cbn [GameState.waveTimer GameState.with_waveTimer
      GameState.score].
    replace (spawnRate (GameState.score (World.gameState w))) with iv
      by (unfold iv, spawnRate, gs; lia).
    fold gs. destruct (Z.rem _ iv =? 0).
    + unfold spawnZombie. cbn. rewrite length_app. reflexivity.
    + cbn. lia.
  - apply spawnRate_antitone.
  - apply spawnRate_floor.
Qed.

Section Speed.

Local Open Scope R_scope.

Lemma fast_speed (score : Z) :
  zombieSpeed ZOMBIE_FAST score = 5 / 2 + / 5000 * IZR score.
Proof. unfold zombieSpeed, lit; simpl. lra. Qed.

Lemma tank_speed (score : Z) : zombieSpeed ZOMBIE_TANK score = 6 / 5.
Proof. unfold zombieSpeed, lit; simpl. lra. Qed.

(** C7, as amended.  Over the reals the speed of an enemy depends on its
    kind and on the score only.  For a fast enemy it is the linear
    function [2.5 + score / 5000], strictly increasing and without a cap;
    for a tank it is the constant [1.2], whatever the score. *)
Theorem speed_by_kind :
  (forall score, zombieSpeed ZOMBIE_FAST score = 5 / 2 + / 5000 * IZR score)
  /\ (forall s1 s2, (s1 < s2)%Z ->
        zombieSpeed ZOMBIE_FAST s1 < zombieSpeed ZOMBIE_FAST s2)
  /\ (forall bound : Z, exists score,
        IZR bound < zombieSpeed ZOMBIE_FAST score)
  /\ (forall score, zombieSpeed ZOMBIE_TANK score = 6 / 5).
Proof.
  split; [| split; [| split]].
  - apply fast_speed.
  - intros s1 s2 Hs. rewrite !fast_speed. apply IZR_lt in Hs. lra.
  - intros bound. exists (5000 * bound)%Z. rewrite fast_speed, mult_IZR. lra.
  - apply tank_speed.
Qed.

(** C7 fails as stated: the speed of a tank is not strictly increasing
    in the score, it is the same at score 0 and at score 5000. *)
Lemma tank_speed_not_increasing :
  @zombieSpeed R exact ZOMBIE_TANK 0 = @zombieSpeed R exact ZOMBIE_TANK 5000.
Proof. reflexivity. Qed.

End Speed.

(** ** What each step of a frame leaves alone *)

Section Vitals.

Context {A : Type} {N : Number A}.
Variable host : Host A.

Definition health (w : World A) : Z :=
  Player.currHealth (GameState.player (World.gameState w)).
Definition maxHealth (w : World A) : Z :=
  Player.maxHealth (GameState.player (World.gameState w)).
Definition running (w : World A) : bool :=
  GameState.isRunning (World.gameState w).
Definition points (w : World A) : Z :=
  GameState.score (World.gameState w).
Definition entitiesOf (w : World A) : list (Entity A) :=
  GameState.entities (World.gameState w).
Definition particlesOf (w : World A) : list (Entity A) :=
  GameState.particles (World.gameState w).

(* The particles that createParticle appends when [k] random numbers
   have been drawn before the call. *)
Fixpoint burst (pos : Vector2 A) (count : nat) (color : string)
    (speed lifeBase : A) (k : nat) : list (Entity A) :=
  match count with
  | O => []
  | S n => newParticle host pos color speed lifeBase k
           :: burst pos n color speed lifeBase (k + 6)
  end.

Lemma createParticle_burst pos count color speed lifeBase (w : World A) :
  createParticle host pos count color speed lifeBase w
  = World.with_randomCalls (World.randomCalls w + 6 * count)
      (World.with_gameState
         (GameState.with_particles
            (particlesOf w ++ burst pos count color speed lifeBase (World.randomCalls w))
            (World.gameState w)) w).
Proof.
  revert w. induction count as [| n IH]; intros [[pl es ps ks m c wt sc r fc] h wd ht k d].
  - cbn. rewrite app_nil_r. f_equal. lia.
  - cbn [createParticle]. rewrite IH. cbn.
    rewrite <- app_assoc. cbn. f_equal. lia.
Qed.

Lemma burst_length pos count color speed lifeBase k :
  length (burst pos count color speed lifeBase k) = count.
Proof. revert k. induction count; intros k; cbn; [done | by rewrite IHcount]. Qed.

Lemma burst_uniform pos count color speed lifeBase k p :
  p ∈ burst pos count color speed lifeBase k ->
  Entity.type p = PARTICLE /\ Entity.pos p = pos /\ Entity.color p = color
  /\ Entity.markedForDeletion p = false.
Proof.
  revert k. induction count as [| n IH]; intros k; cbn.
  - intros Hp. by apply elem_of_nil in Hp.
  - intros [-> | Hp]%elem_of_cons; [done | by eapply IH].
Qed.

(** [quiet w w'] says that [w'] differs from [w] at most in what a step
    of the update may touch without affecting the player's health, the
    running flag, the score, the React state or the canvas size. *)
Record quiet (w w' : World A) : Prop := {
  quiet_health : health w' = health w;
  quiet_max : maxHealth w' = maxHealth w;
  quiet_running : running w' = running w;
  quiet_points : points w' = points w;
  quiet_hud : World.hud w' = World.hud w;
  quiet_size : World.width w' = World.width w /\ World.height w' = World.height w;
}.

Lemma quiet_refl w : quiet w w.
Proof. by split. Qed.

Lemma quiet_trans w1 w2 w3 : quiet w1 w2 -> quiet w2 w3 -> quiet w1 w3.
Proof.
  intros [] []. split; try congruence. split; destruct quiet_size0, quiet_size1; congruence.
Qed.

Lemma quiet_gameState (f : GameState A -> GameState A) w :
  (forall gs, Player.currHealth (GameState.player (f gs))
              = Player.currHealth (GameState.player gs)
              /\ Player.maxHealth (GameState.player (f gs))
                 = Player.maxHealth (GameState.player gs)
              /\ GameState.isRunning (f gs) = GameState.isRunning gs
              /\ GameState.score (f gs) = GameState.score gs) ->
  quiet w (World.with_gameState (f (World.gameState w)) w).
Proof.
  intros Hf. destruct (Hf (World.gameState w)) as (? & ? & ? & ?).
  split; unfold health, maxHealth, running, points; cbn; auto.
Qed.

Lemma createParticle_quiet pos count color speed lifeBase w :
  quiet w (createParticle host pos count color speed lifeBase w).
Proof. rewrite createParticle_burst. by split. Qed.

Lemma createParticle_entities pos count color speed lifeBase w :
  entitiesOf (createParticle host pos count color speed lifeBase w) = entitiesOf w.
Proof. by rewrite createParticle_burst. Qed.

Lemma movePlayer_quiet wd ht w :
  quiet w (World.with_gameState (movePlayer wd ht (World.gameState w)) w).
Proof. apply (quiet_gameState (movePlayer wd ht)). intros gs. by repeat split. Qed.

Lemma aimPlayer_quiet w :
  quiet w (World.with_gameState (aimPlayer host (World.gameState w)) w).
Proof. apply (quiet_gameState (aimPlayer host)). intros gs. by repeat split. Qed.

Lemma coolDown_quiet w :
  quiet w (World.with_gameState (coolDown (World.gameState w)) w).
Proof.
  apply (quiet_gameState coolDown). intros gs. unfold coolDown.
  by destruct (0 <? _)%Z.
Qed.

Lemma decayRecoil_quiet w :
  quiet w (World.with_gameState (decayRecoil (World.gameState w)) w).
Proof.
  apply (quiet_gameState decayRecoil). intros gs. unfold decayRecoil.
  by destruct (nltb _ _).
Qed.

Lemma updateParticles_quiet w :
  quiet w (World.with_gameState (updateParticles (World.gameState w)) w).
Proof. apply (quiet_gameState updateParticles). intros gs. by repeat split. Qed.

Lemma cleanup_quiet w :
  quiet w (World.with_gameState (cleanup (World.gameState w)) w).
Proof. apply (quiet_gameState cleanup). intros gs. by repeat split. Qed.

Lemma fire_quiet w : quiet w (fire host w).
Proof.
  unfold fire. eapply quiet_trans; [| apply createParticle_quiet]. by split.
Qed.

Lemma shoot_quiet w : quiet w (shoot host w).
Proof.
  unfold shoot. eapply quiet_trans; [apply coolDown_quiet |].
  destruct (_ && _); [apply fire_quiet | apply quiet_refl].
Qed.

Lemma spawn_quiet w : quiet w (spawn host w).
Proof. unfold spawn. by destruct (_ =? 0)%Z. Qed.

Lemma draw_quiet w : quiet w (draw host w).
Proof. unfold draw. by destruct (nltb _ _). Qed.

(** *** Enemies against the player *)

Definition typesOf (w : World A) : list EntityType :=
  Entity.type <$> entitiesOf w.

Lemma types_insert (l : list (Entity A)) i e e' :
  l !! i = Some e -> Entity.type e' = Entity.type e ->
  Entity.type <$> <[i := e']> l = Entity.type <$> l.
Proof.
  intros Hl He. rewrite list_fmap_insert, He.
  apply list_insert_id. by rewrite list_lookup_fmap, Hl.
Qed.

(** [contact w w'] says that between [w] and [w'] one enemy has touched
    the player: one health point is lost and published, and the running
    flag is cleared if none is left. *)
Record contact (w w' : World A) : Prop := {
  contact_health : health w' = health w - 1;
  contact_max : maxHealth w' = maxHealth w;
  contact_running :
    running w' = if (health w' <=? 0)%Z then false else running w;
  contact_points : points w' = points w;
  contact_hud : World.hud w' = setHealth (health w') (World.hud w);
  contact_size : World.width w' = World.width w /\ World.height w' = World.height w;
}.

Lemma touchPlayer_contact i ent dir w : contact w (touchPlayer i ent dir w).
Proof.
  unfold touchPlayer. split; unfold health, maxHealth, running, points; cbn;
    try done; destruct (_ <=? 0)%Z eqn:E; cbn; rewrite ?E; done.
Qed.

Lemma touchPlayer_types i e ent dir w :
  entitiesOf w !! i = Some e -> Entity.type ent = Entity.type e ->
  typesOf (touchPlayer i ent dir w) = typesOf w.
Proof.
  intros Hi Hty. unfold touchPlayer, typesOf, entitiesOf in *.
  destruct (_ <=? 0)%Z; cbn; by eapply types_insert.
Qed.

Lemma updateEntity_cases i w :
  quiet w (updateEntity host i w)
  \/ (contact w (updateEntity host i w)
      /\ exists e, entitiesOf w !! i = Some e
                   /\ startsWithZOMBIE (Entity.type e) = true).
Proof.
  unfold updateEntity.
  destruct (GameState.entities (World.gameState w) !! i) as [ent |] eqn:Hi;
    [| left; apply quiet_refl].
  destruct (isBULLET (Entity.type ent)); [left; by split |].
  destruct (startsWithZOMBIE (Entity.type ent)) eqn:Hz; [| left; apply quiet_refl].
  match goal with |- context [if nltb ?a ?b then _ else _] => destruct (nltb a b) end.
  - right. split; [| by exists ent].
    match goal with |- contact _ (touchPlayer ?i ?e ?d ?w1) =>
      pose proof (touchPlayer_contact i e d w1) as [] end.
    by split.
  - left. by split.
Qed.

Lemma updateEntity_types i w : typesOf (updateEntity host i w) = typesOf w.
Proof.
  unfold updateEntity.
  destruct (GameState.entities (World.gameState w) !! i) as [ent |] eqn:Hi; [| done].
  destruct (isBULLET (Entity.type ent)).
  { unfold typesOf, entitiesOf; cbn. destruct (_ || _); by eapply types_insert. }
  destruct (startsWithZOMBIE (Entity.type ent)); [| done].
  match goal with |- context [if nltb ?a ?b then _ else _] => destruct (nltb a b) end.
  - erewrite touchPlayer_types.
    + unfold typesOf, entitiesOf; cbn. by eapply types_insert.
    + unfold entitiesOf; cbn. apply list_lookup_insert_eq. by eapply lookup_lt_Some.
    + done.
  - unfold typesOf, entitiesOf; cbn. by eapply types_insert.
Qed.

(** *** Bullets against enemies *)

(* The enemy after "enemy.life -= 25" and the knockback. *)
Definition struck (bullet enemy : Entity A) : Entity A :=
  Entity.with_pos
    (vecAdd (Entity.pos enemy) (vecMult (vecNorm (Entity.vel bullet)) (ofZ 4)))
    (Entity.with_life (nsub (Entity.life enemy) (ofZ 25)) enemy).

(* "enemy.life <= 0" after the hit. *)
Definition lethal (enemy : Entity A) : bool :=
  nleb (nsub (Entity.life enemy) (ofZ 25)) (ofZ 0).

Ltac hit_cases :=
  unfold hit, killEnemy, lethal, struck, entitiesOf, particlesOf, points, running;
  cbn -[createParticle burst];
  destruct (nleb _ _);
  rewrite !createParticle_burst; cbn -[burst].

Lemma hit_entities i j bullet enemy w :
  entitiesOf (hit host i j bullet enemy w)
  = <[j := if lethal enemy
           then Entity.with_markedForDeletion true (struck bullet enemy)
           else struck bullet enemy]>
      (<[i := Entity.with_markedForDeletion true bullet]> (entitiesOf w)).
Proof. hit_cases; [| done]. by rewrite list_insert_insert_eq. Qed.

Lemma hit_points i j bullet enemy w :
  points (hit host i j bullet enemy w)
  = (points w + if lethal enemy then reward (Entity.type enemy) else 0)%Z.
Proof. hit_cases; lia. Qed.

Lemma hit_hud i j bullet enemy w :
  World.hud (hit host i j bullet enemy w)
  = if lethal enemy
    then setScore (points w + reward (Entity.type enemy)) (World.hud w)
    else World.hud w.
Proof. hit_cases; done. Qed.

Lemma hit_particles i j bullet enemy w :
  let k := World.randomCalls w in
  let at_ := Entity.pos (struck bullet enemy) in
  particlesOf (hit host i j bullet enemy w)
  = particlesOf w
    ++ burst at_ 5 (Entity.color enemy) (ofZ 3) (ofZ 10) k
    ++ (if lethal enemy
        then burst at_ 15 BLOOD_COLOR_1 (ofZ 5) (ofZ 40) (k + 30)
             ++ burst at_ 10 BLOOD_COLOR_2 (ofZ 4) (ofZ 30) (k + 120)
        else []).
Proof.
  hit_cases.
  - replace (World.randomCalls w + 30 + 90)%nat with (World.randomCalls w + 120)%nat by lia.
    by rewrite <- !app_assoc.
  - by rewrite app_nil_r.
Qed.

Lemma hit_player i j bullet enemy w :
  GameState.player (World.gameState (hit host i j bullet enemy w))
  = GameState.player (World.gameState w)
  /\ running (hit host i j bullet enemy w) = running w
  /\ Hud.health (World.hud (hit host i j bullet enemy w)) = Hud.health (World.hud w)
  /\ World.width (hit host i j bullet enemy w) = World.width w
  /\ World.height (hit host i j bullet enemy w) = World.height w.
Proof. hit_cases; done. Qed.

(* A live enemy that the bullet overlaps. *)
Definition target (bullet e : Entity A) : bool :=
  startsWithZOMBIE (Entity.type e) && negb (Entity.markedForDeletion e)
  && overlaps bullet e.

(* The scan of the slots [a, a + n): the first target in them is hit,
   and if there is none nothing changes. *)
Lemma scanEnemies_first i bullet n : forall a w,
  (a + n <= length (entitiesOf w))%nat ->
  ((forall j e, (a <= j < a + n)%nat -> entitiesOf w !! j = Some e ->
                target bullet e = false)
   /\ scanEnemies host i bullet (seq a n) w = w)
  \/ (exists j enemy,
        (a <= j < a + n)%nat
        /\ entitiesOf w !! j = Some enemy
        /\ target bullet enemy = true
        /\ (forall j' e', (a <= j' < j)%nat -> entitiesOf w !! j' = Some e' ->
                          target bullet e' = false)
        /\ scanEnemies host i bullet (seq a n) w = hit host i j bullet enemy w).
Proof.
  induction n as [| n IH]; intros a w Hlen.
  { left. split; [intros; lia | done]. }
  cbn [seq scanEnemies]. fold (entitiesOf w).
  destruct (entitiesOf w !! a) as [enemy |] eqn:Ha;
    [| apply lookup_ge_None in Ha; lia].
  assert (Hskip :
    target bullet enemy = false ->
    ((forall j e, (a <= j < a + S n)%nat -> entitiesOf w !! j = Some e ->
                  target bullet e = false)
     /\ scanEnemies host i bullet (seq (S a) n) w = w)
    \/ (exists j enemy0,
          (a <= j < a + S n)%nat
          /\ entitiesOf w !! j = Some enemy0
          /\ target bullet enemy0 = true
          /\ (forall j' e', (a <= j' < j)%nat -> entitiesOf w !! j' = Some e' ->
                            target bullet e' = false)
          /\ scanEnemies host i bullet (seq (S a) n) w
             = hit host i j bullet enemy0 w)).
  { intros Hno. destruct (IH (S a) w ltac:(lia)) as [[Hnone Hw] | (j & e & Hj & He & Ht & Hbefore & Hw)].
    - left. split; [| done]. intros j e Hj He.
      destruct (decide (j = a)) as [-> | Hne]; [congruence |].
      apply (Hnone j); [lia | done].
    - right. exists j, e. repeat split; try done; try lia.
      intros j' e' Hj' He'.
      destruct (decide (j' = a)) as [-> | Hne]; [congruence |].
      apply (Hbefore j'); [lia | done]. }
  unfold target in Hskip |- *.
  destruct (startsWithZOMBIE (Entity.type enemy)) eqn:Hz; cbn [negb orb andb] in *;
    [| by apply Hskip].
  destruct (Entity.markedForDeletion enemy) eqn:Hm; cbn [negb orb andb] in *;
    [by apply Hskip |].
  destruct (overlaps bullet enemy) eqn:Ho; [| by apply Hskip].
  right. exists a, enemy. repeat split; try done; try lia.
  by rewrite Hz, Hm, Ho.
Qed.

Lemma bulletStep_cases i w :
  bulletStep host i w = w
  \/ exists j bullet enemy,
       entitiesOf w !! i = Some bullet
       /\ isBULLET (Entity.type bullet) = true
       /\ entitiesOf w !! j = Some enemy
       /\ target bullet enemy = true
       /\ bulletStep host i w = hit host i j bullet enemy w.
Proof.
  unfold bulletStep. fold (entitiesOf w).
  destruct (entitiesOf w !! i) as [bullet |] eqn:Hi; [| by left].
  destruct (isBULLET (Entity.type bullet)) eqn:Hb; [| by left].
  destruct (Entity.markedForDeletion bullet); [by left |]. cbn [negb orb].
  destruct (scanEnemies_first i bullet (length (entitiesOf w)) 0 w ltac:(lia))
    as [[_ ->] | (j & enemy & _ & Hj & Ht & _ & ->)]; [by left |].
  right. by exists j, bullet, enemy.
Qed.

(** *** One frame *)

(** [advance w w'] collects what holds between a state and any later
    state of the same frame. *)
Record advance (w w' : World A) : Prop := {
  adv_max : maxHealth w' = maxHealth w;
  adv_health : (health w' <= health w)%Z;
  adv_points : (points w <= points w')%Z;
  adv_stopped : running w = false -> running w' = false;
  adv_dead :
    ((health w <= 0)%Z -> running w = false) ->
    (health w' <= 0)%Z -> running w' = false;
  adv_hud_health :
    (Hud.health (World.hud w') <= Z.max (Hud.health (World.hud w)) (health w))%Z;
}.

Lemma advance_refl w : advance w w.
Proof. split; auto; lia. Qed.

Lemma advance_trans w1 w2 w3 : advance w1 w2 -> advance w2 w3 -> advance w1 w3.
Proof. intros [] []. split; auto; try congruence; lia. Qed.

Lemma quiet_advance w w' : quiet w w' -> advance w w'.
Proof.
  intros []. split; try congruence; try lia.
  - intros J Hh. rewrite quiet_running0. apply J. lia.
  - rewrite quiet_hud0. lia.
Qed.

Lemma contact_advance w w' : contact w w' -> advance w w'.
Proof.
  intros []. split; try congruence; try lia.
  - intros Hr. rewrite contact_running0, Hr. by destruct (_ <=? 0)%Z.
  - intros _ Hh. rewrite contact_running0.
    destruct (health w' <=? 0)%Z eqn:E; [done | lia].
  - rewrite contact_hud0. cbn. lia.
Qed.

Lemma updateEntity_advance i w : advance w (updateEntity host i w).
Proof.
  destruct (updateEntity_cases i w) as [Hq | [Hc _]];
    [by apply quiet_advance | by apply contact_advance].
Qed.

Lemma hit_advance i j bullet enemy w : advance w (hit host i j bullet enemy w).
Proof.
  destruct (hit_player i j bullet enemy w) as (Hp & Hr & Hh & _).
  pose proof (hit_points i j bullet enemy w) as Hs.
  assert (0 <= if lethal enemy then reward (Entity.type enemy) else 0)%Z
    by (destruct (lethal enemy), (Entity.type enemy); cbn; lia).
  split; unfold health, maxHealth in *; rewrite ?Hp, ?Hr, ?Hh; auto; lia.
Qed.

Lemma bulletStep_advance i w : advance w (bulletStep host i w).
Proof.
  destruct (bulletStep_cases i w) as [-> | (j & b & e & _ & _ & _ & _ & ->)];
    [apply advance_refl | apply hit_advance].
Qed.

Lemma fold_advance (f : World A -> nat -> World A) l :
  (forall w i, advance w (f w i)) -> forall w, advance w (fold_left f l w).
Proof.
  intros Hf. induction l as [| i l IH]; intros w; cbn.
  - apply advance_refl.
  - eapply advance_trans; [apply Hf | apply IH].
Qed.

Lemma updateEntities_advance w : advance w (updateEntities host w).
Proof. apply fold_advance. intros; apply updateEntity_advance. Qed.

Lemma collideBullets_advance w : advance w (collideBullets host w).
Proof. apply fold_advance. intros; apply bulletStep_advance. Qed.

(* The update part of [loop], before anything is drawn. *)
Definition update (w : World A) : World A :=
  let gs := World.gameState w in
  let gs := GameState.with_frameCount (GameState.frameCount gs + 1)%Z gs in
  let gs := movePlayer (World.width w) (World.height w) gs in
  let gs := aimPlayer host gs in
  let w := shoot host (World.with_gameState gs w) in
  let w := World.with_gameState (decayRecoil (World.gameState w)) w in
  let w := spawn host w in
  let w := updateEntities host w in
  let w := collideBullets host w in
  let w := World.with_gameState (updateParticles (World.gameState w)) w in
  World.with_gameState (cleanup (World.gameState w)) w.

Lemma loop_running w :
  running w = true -> loop host w = draw host (update w).
Proof. unfold loop, running. by intros ->. Qed.

Lemma loop_stopped w :
  running w = false ->
  loop host w
  = if (health w <=? 0)%Z
    then World.with_hud (setGameOver true (World.hud w)) w else w.
Proof. unfold loop, running, health, capturedGameOver. intros ->. cbn. by rewrite andb_true_r. Qed.

Lemma loop_idle_gameState w :
  running w = false -> World.gameState (loop host w) = World.gameState w.
Proof. intros Hr. rewrite (loop_stopped w Hr). by destruct (_ <=? 0)%Z. Qed.

Ltac chain lem := eapply advance_trans; [| apply quiet_advance, lem].

Lemma update_advance w : advance w (update w).
Proof.
  unfold update.
  chain cleanup_quiet. chain updateParticles_quiet.
  eapply advance_trans; [| apply collideBullets_advance].
  eapply advance_trans; [| apply updateEntities_advance].
  chain spawn_quiet. chain decayRecoil_quiet. chain shoot_quiet.
  apply quiet_advance. by split.
Qed.

Lemma loop_advance w : advance w (loop host w).
Proof.
  destruct (running w) eqn:Hr.
  - rewrite (loop_running w Hr).
    eapply advance_trans; [apply update_advance | apply quiet_advance, draw_quiet].
  - rewrite (loop_stopped w Hr). destruct (_ <=? 0)%Z; [| apply advance_refl].
    split; unfold health, maxHealth, points, running in *; cbn; auto; lia.
Qed.

End Vitals.

(** ** How much health one frame can take *)

Section Damage.

Context {A : Type} {N : Number A}.
Variable host : Host A.

(* The number of enemies among the entities. *)
Definition enemies (w : World A) : nat :=
  length (List.filter startsWithZOMBIE (typesOf w)).

(* The number of slots of [l] that hold an enemy. *)
Definition enemySlots (tys : list EntityType) (l : list nat) : nat :=
  length (List.filter
            (fun i => match tys !! i with
                      | Some ty => startsWithZOMBIE ty
                      | None => false
                      end) l).

Lemma enemySlots_seq tys : forall pre,
  enemySlots (pre ++ tys) (seq (length pre) (length tys))
  = length (List.filter startsWithZOMBIE tys).
Proof.
  unfold enemySlots. induction tys as [| ty tys IH]; intros pre; [done |].
  cbn [length seq List.filter].
  rewrite list_lookup_middle by done.
  specialize (IH (pre ++ [ty])). rewrite <- app_assoc, length_app in IH.
  cbn in IH. rewrite Nat.add_1_r in IH.
  destruct (startsWithZOMBIE ty); cbn [length]; by rewrite IH.
Qed.

Lemma updateEntity_health i w :
  health w - (if match typesOf w !! i with
                 | Some ty => startsWithZOMBIE ty
                 | None => false
                 end then 1 else 0)
  <= health (updateEntity host i w).
Proof.
  destruct (updateEntity_cases host i w) as [[] | [[] (e & He & Hz)]].
  - rewrite quiet_health0. repeat case_match; lia.
  - unfold typesOf. rewrite list_lookup_fmap, He. cbn. rewrite Hz. lia.
Qed.

Lemma fold_updateEntity_health l : forall w,
  health w - Z.of_nat (enemySlots (typesOf w) l)
  <= health (fold_left (fun w i => updateEntity host i w) l w).
Proof.
  induction l as [| i l IH]; intros w; cbn [fold_left].
  - unfold enemySlots. cbn. lia.
  - specialize (IH (updateEntity host i w)).
    rewrite updateEntity_types in IH.
    pose proof (updateEntity_health i w) as Hi.
    unfold enemySlots in *. cbn [List.filter].
    destruct (match typesOf w !! i with Some ty => startsWithZOMBIE ty | None => false end);
      cbn [length]; lia.
Qed.

Lemma updateEntities_health w :
  health w - Z.of_nat (enemies w) <= health (updateEntities host w).
Proof.
  unfold updateEntities, enemies.
  rewrite <- (enemySlots_seq (typesOf w) []). cbn [app length].
  replace (length (GameState.entities (World.gameState w)))
    with (length (typesOf w)) by (unfold typesOf, entitiesOf; apply length_fmap).
  apply fold_updateEntity_health.
Qed.

Lemma fold_keeps {B} (f : World A -> nat -> World A) (g : World A -> B) l :
  (forall w i, g (f w i) = g w) -> forall w, g (fold_left f l w) = g w.
Proof.
  intros Hf. induction l as [| i l IH]; intros w; cbn; [done |].
  by rewrite IH, Hf.
Qed.

Lemma collideBullets_health w : health (collideBullets host w) = health w.
Proof.
  apply fold_keeps. intros w0 i.
  destruct (bulletStep_cases host i w0) as [-> | (j & b & e & _ & _ & _ & _ & ->)];
    [done |].
  unfold health. by destruct (hit_player host i j b e w0) as [-> _].
Qed.

Lemma enemies_snoc (w w' : World A) e :
  entitiesOf w' = entitiesOf w ++ [e] ->
  enemies w' = (enemies w + if startsWithZOMBIE (Entity.type e) then 1 else 0)%nat.
Proof.
  unfold enemies, typesOf. intros ->.
  rewrite fmap_app, List.filter_app, length_app. cbn.
  by destruct (startsWithZOMBIE _).
Qed.

Lemma shoot_enemies w : enemies (shoot host w) = enemies w.
Proof.
  unfold shoot.
  set (w1 := World.with_gameState (coolDown (World.gameState w)) w).
  assert (H1 : enemies w1 = enemies w).
  { unfold w1, enemies, typesOf, entitiesOf, coolDown. cbn. by destruct (0 <? _). }
  destruct (_ && _); [| done]. rewrite <- H1.
  unfold fire.
  match goal with |- enemies (createParticle _ _ _ _ _ _ ?w2) = _ =>
    transitivity (enemies w2) end.
  { unfold enemies, typesOf. by rewrite createParticle_entities. }
  erewrite enemies_snoc; [| reflexivity]. cbn. lia.
Qed.

Lemma spawn_enemies w : (enemies (spawn host w) <= enemies w + 1)%nat.
Proof.
  unfold spawn. destruct (_ =? 0).
  - unfold spawnZombie. erewrite enemies_snoc; [| reflexivity].
    unfold enemies, typesOf, entitiesOf. cbn. destruct (startsWithZOMBIE _); lia.
  - unfold enemies, typesOf, entitiesOf. cbn. lia.
Qed.

Lemma decayRecoil_enemies w :
  enemies (World.with_gameState (decayRecoil (World.gameState w)) w) = enemies w.
Proof. unfold enemies, typesOf, entitiesOf, decayRecoil. cbn. by destruct (nltb _ _). Qed.

Lemma update_health w :
  health w - Z.of_nat (enemies w) - 1 <= health (update host w).
Proof.
  unfold update.
  set (w0 := World.with_gameState _ w).
  assert (H0 : health w0 = health w /\ enemies w0 = enemies w) by done.
  pose proof (quiet_health _ _ (shoot_quiet host w0)) as H1.
  pose proof (shoot_enemies w0) as E1.
  set (w1 := shoot host w0) in *.
  pose proof (quiet_health _ _ (decayRecoil_quiet w1)) as H2.
  pose proof (decayRecoil_enemies w1) as E2.
  set (w2 := World.with_gameState (decayRecoil (World.gameState w1)) w1) in *.
  pose proof (quiet_health _ _ (spawn_quiet host w2)) as H3.
  pose proof (spawn_enemies w2) as E3.
  set (w3 := spawn host w2) in *.
  pose proof (updateEntities_health w3) as H4.
  set (w4 := updateEntities host w3) in *.
  pose proof (collideBullets_health w4) as H5.
  set (w5 := collideBullets host w4) in *.
  change (health w - Z.of_nat (enemies w) - 1 <= health w5).
  lia.
Qed.

Lemma loop_health w :
  health w - Z.of_nat (enemies w) - 1 <= health (loop host w) <= health w.
Proof.
  split; [| apply (adv_health _ _ (loop_advance host w))].
  destruct (running w) eqn:Hr.
  - rewrite (loop_running host w Hr).
    rewrite (quiet_health _ _ (draw_quiet host (update host w))).
    apply update_health.
  - unfold health. rewrite (loop_idle_gameState host w Hr). lia.
Qed.

End Damage.

(** ** Combat: one hit per bullet, one reward per enemy *)

Section Combat.

Context {A : Type} {N : Number A}.
Variable host : Host A.

Lemma bullet_is_no_enemy (e : Entity A) :
  isBULLET (Entity.type e) = true -> startsWithZOMBIE (Entity.type e) = false.
Proof. by destruct (Entity.type e). Qed.

Lemma target_enemy (bullet e : Entity A) :
  target bullet e = true ->
  startsWithZOMBIE (Entity.type e) = true
  /\ Entity.markedForDeletion e = false
  /\ overlaps bullet e = true.
Proof.
  unfold target. intros [[Hz Hm]%andb_true_iff Ho]%andb_true_iff.
  by apply negb_true_iff in Hm.
Qed.


(** *** The score of a pass *)

(* What the kill of the enemy in one slot is worth: its reward if it
   was a live enemy before the pass and is marked after it. *)
Definition killedReward (before after : Entity A) : Z :=
  if startsWithZOMBIE (Entity.type before)
     && negb (Entity.markedForDeletion before)
     && Entity.markedForDeletion after
  then reward (Entity.type before) else 0.

(* The sum of [killedReward] over the slots. *)
Fixpoint bounty (before after : list (Entity A)) : Z :=
  match before, after with
  | b :: bs, a :: rest => killedReward b a + bounty bs rest
  | _, _ => 0
  end.

Lemma bounty_same l : bounty l l = 0.
Proof.
  induction l as [| e l IH]; cbn; [done |]. rewrite IH.
  unfold killedReward. destruct (Entity.markedForDeletion e);
    rewrite ?andb_false_r; cbn; lia.
Qed.

Lemma bounty_insert before : forall after j b a a',
  before !! j = Some b -> after !! j = Some a ->
  bounty before (<[j := a']> after)
  = bounty before after - killedReward b a + killedReward b a'.
Proof.
  induction before as [| b0 before IH]; intros [| a0 after] j b a a' Hb Ha;
    try done.
  destruct j as [| j].
  - injection Hb as ->. injection Ha as ->.
    change (<[0%nat := a']> (a :: after)) with (a' :: after). cbn [bounty]. lia.
  - change (<[S j := a']> (a0 :: after)) with (a0 :: <[j := a']> after).
    cbn [bounty]. rewrite (IH after j b a a' Hb Ha). lia.
Qed.

(** [tracked w0 w]: [w] is a state of the pass started in [w0]. *)
Record tracked (w0 w : World A) : Prop := {
  tracked_length : length (entitiesOf w) = length (entitiesOf w0);
  tracked_slots : forall j b a,
    entitiesOf w0 !! j = Some b -> entitiesOf w !! j = Some a ->
    Entity.type a = Entity.type b
    /\ (Entity.markedForDeletion b = true -> Entity.markedForDeletion a = true);
  tracked_points : points w = points w0 + bounty (entitiesOf w0) (entitiesOf w);
}.

Lemma tracked_start w : tracked w w.
Proof.
  split; [done | | rewrite bounty_same; lia].
  intros j b a Hb Ha. rewrite Hb in Ha. by injection Ha as ->.
Qed.

Lemma tracked_hit w0 w i j bullet enemy :
  tracked w0 w ->
  entitiesOf w !! i = Some bullet ->
  isBULLET (Entity.type bullet) = true ->
  entitiesOf w !! j = Some enemy ->
  target bullet enemy = true ->
  tracked w0 (hit host i j bullet enemy w).
Proof.
  intros [Hlen Hslots Hpts] Hi Hb Hj Ht.
  destruct (target_enemy _ _ Ht) as (Hz & Hm & _).
  pose proof (lookup_lt_Some _ _ _ Hi) as Hilen.
  pose proof (lookup_lt_Some _ _ _ Hj) as Hjlen.
  destruct (lookup_lt_is_Some_2 (entitiesOf w0) i ltac:(lia)) as [b0 Hb0].
  destruct (lookup_lt_is_Some_2 (entitiesOf w0) j ltac:(lia)) as [e0 He0].
  destruct (Hslots i b0 bullet Hb0 Hi) as [Htb _].
  destruct (Hslots j e0 enemy He0 Hj) as [Hte Hme].
  assert (Hij : i <> j).
  { intros ->. rewrite Hi in Hj. injection Hj as ->.
    rewrite (bullet_is_no_enemy _ Hb) in Hz. done. }
  set (e' := if lethal enemy
             then Entity.with_markedForDeletion true (struck bullet enemy)
             else struck bullet enemy).
  assert (He' : Entity.type e' = Entity.type enemy
                /\ Entity.markedForDeletion e' = lethal enemy).
  { unfold e'. destruct (lethal enemy); cbn; [done |]. by rewrite Hm. }
  destruct He' as [Hty' Hmk'].
  split.
  - by rewrite hit_entities, !length_insert.
  - intros k b a Hb0k Hak. rewrite hit_entities in Hak. fold e' in Hak.
    destruct (decide (k = j)) as [-> | Hkj].
    + rewrite list_lookup_insert_eq in Hak by (by rewrite length_insert).
      injection Hak as <-. rewrite Hb0k in He0. injection He0 as ->.
      split; [congruence |]. intros Hmb. specialize (Hme Hmb). congruence.
    + rewrite list_lookup_insert_ne in Hak by done.
      destruct (decide (k = i)) as [-> | Hki].
      * rewrite list_lookup_insert_eq in Hak by done. injection Hak as <-.
        rewrite Hb0k in Hb0. injection Hb0 as ->. by split.
      * rewrite list_lookup_insert_ne in Hak by done. by apply (Hslots k).
  - rewrite hit_points, hit_entities, Hpts. fold e'.
    rewrite (bounty_insert _ _ j e0 enemy e')
      by (by rewrite ?list_lookup_insert_ne).
    rewrite (bounty_insert _ _ i b0 bullet _ Hb0 Hi).
    assert (Hbullet : forall a, killedReward b0 a = 0).
    { intros a. unfold killedReward.
      by rewrite <- Htb, (bullet_is_no_enemy _ Hb). }
    rewrite !Hbullet.
    assert (He0m : Entity.markedForDeletion e0 = false).
    { destruct (Entity.markedForDeletion e0); [| done].
      specialize (Hme eq_refl). congruence. }
    unfold killedReward. rewrite <- Hte, Hz, He0m, Hm, Hmk'. cbn.
    destruct (lethal enemy); lia.
Qed.

Lemma tracked_bulletStep w0 w i : tracked w0 w -> tracked w0 (bulletStep host i w).
Proof.
  intros Ht.
  destruct (bulletStep_cases host i w)
    as [-> | (j & b & e & Hi & Hb & Hj & Htg & ->)]; [done |].
  by eapply tracked_hit.
Qed.

Lemma fold_invariant (P : World A -> Prop) (f : World A -> nat -> World A) l :
  (forall w i, P w -> P (f w i)) -> forall w, P w -> P (fold_left f l w).
Proof.
  intros Hf. induction l as [| i l IH]; intros w Hw; cbn; [done |].
  by apply IH, Hf.
Qed.

Lemma collideBullets_bounty w :
  points (collideBullets host w)
  = points w + bounty (entitiesOf w) (entitiesOf (collideBullets host w)).
Proof.
  apply (tracked_points w). unfold collideBullets.
  apply (fold_invariant (tracked w)); [| apply tracked_start].
  intros w1 i. apply tracked_bulletStep.
Qed.

Lemma cleanup_sweeps (gs : GameState A) :
  Forall (fun e => Entity.markedForDeletion e = false)
         (GameState.entities (cleanup gs)).
Proof.
  unfold cleanup; cbn. apply List.Forall_forall. intros e He.
  apply List.filter_In in He as [_ He]. by apply negb_true_iff in He.
Qed.

(** C5. When a hit uses up the health of the enemy in slot [j], the
    enemy is marked for removal (and the sweep of the same tick keeps no
    marked entity); the score and the published score grow by the reward
    of its kind, 50 for a tank and 10 for a fast enemy; and after the
    sparks of the hit itself exactly two bursts are appended to the
    particles, 15 particles of [BLOOD_COLOR_1] at speed 5 and 10 of
    [BLOOD_COLOR_2] at speed 4, all at the enemy's position.  The reward
    is given once: over a whole pass the score grows by the sum of the
    rewards of the enemies that were live before it and are marked after
    it, each slot counted once. *)
Theorem enemy_death_is_rewarded_once (i j : nat) (bullet enemy : Entity A)
    (w : World A) :
  entitiesOf w !! j = Some enemy ->
  lethal enemy = true ->
  let w' := hit host i j bullet enemy w in
  let k := World.randomCalls w in
  let at_ := Entity.pos (struck bullet enemy) in
  let blood1 := burst host at_ 15 BLOOD_COLOR_1 (ofZ 5) (ofZ 40) (k + 30) in
  let blood2 := burst host at_ 10 BLOOD_COLOR_2 (ofZ 4) (ofZ 30) (k + 120) in
  (exists e', entitiesOf w' !! j = Some e'
              /\ Entity.markedForDeletion e' = true
              /\ Entity.type e' = Entity.type enemy)
  /\ (forall gs : GameState A,
        Forall (fun e => Entity.markedForDeletion e = false)
               (GameState.entities (cleanup gs)))
  /\ points w' = points w + reward (Entity.type enemy)
  /\ Hud.score (World.hud w') = points w'
  /\ reward ZOMBIE_TANK = 50 /\ reward ZOMBIE_FAST = 10
  /\ particlesOf w'
     = particlesOf w
       ++ burst host at_ 5 (Entity.color enemy) (ofZ 3) (ofZ 10) k
       ++ blood1 ++ blood2
  /\ length blood1 = 15%nat /\ length blood2 = 10%nat
  /\ Forall (fun p => Entity.color p = BLOOD_COLOR_1 /\ Entity.pos p = at_) blood1
  /\ Forall (fun p => Entity.color p = BLOOD_COLOR_2 /\ Entity.pos p = at_) blood2
  /\ BLOOD_COLOR_1 <> BLOOD_COLOR_2
  /\ (forall w0 : World A,
        points (collideBullets host w0)
        = points w0 + bounty (entitiesOf w0) (entitiesOf (collideBullets host w0))).
Proof.
  intros Hj Hl w' k at_ blood1 blood2.
  pose proof (lookup_lt_Some _ _ _ Hj) as Hjlen.
  split_and!.
  - eexists. subst w'. rewrite hit_entities, Hl.
    rewrite list_lookup_insert_eq by (by rewrite length_insert). done.
  - apply cleanup_sweeps.
  - subst w'. rewrite hit_points, Hl. done.
  - subst w'. rewrite hit_hud, hit_points, Hl. done.
  - done.
  - done.
  - subst w'. rewrite hit_particles, Hl. done.
  - apply burst_length.
  - apply burst_length.
  - apply Forall_forall. intros p Hp.
    by destruct (burst_uniform host _ _ _ _ _ _ _ Hp) as (_ & ? & ? & _).
  - apply Forall_forall. intros p Hp.
    by destruct (burst_uniform host _ _ _ _ _ _ _ Hp) as (_ & ? & ? & _).
  - done.
  - apply collideBullets_bounty.
Qed.

End Combat.

(** ** Sessions *)

Section Sessions.

Context {A : Type} {N : Number A}.
Variable host : Host A.

(* The width of the health bar, in percent: Math.max(0, health). *)
Definition healthBarWidth (h : Hud.t) : Z := Z.max 0 (Hud.health h).

(** What every state of a session satisfies. *)
Record sound (w : World A) : Prop := {
  sound_max : maxHealth w = 100;
  sound_health : health w <= 100;
  sound_hud : Hud.health (World.hud w) <= 100;
  sound_alive : running w = true -> 0 < health w;
}.

Lemma advance_sound w w' : advance w w' -> sound w -> sound w'.
Proof.
  intros [] []. split; try lia.
  intros Hr. destruct (decide (health w' <= 0)) as [Hd |]; [| lia].
  rewrite adv_dead0 in Hr; [done | | done].
  intros Hh. destruct (running w) eqn:E; [| done]. specialize (sound_alive0 eq_refl). lia.
Qed.

Lemma mount_sound wd ht : sound (mount (A := A) wd ht).
Proof. by split. Qed.

Lemma restartGame_sound w : sound w -> sound (restartGame w).
Proof. intros []. by split. Qed.

Lemma handleResize_quiet wd ht w :
  health (handleResize wd ht w) = health w
  /\ maxHealth (handleResize wd ht w) = maxHealth w
  /\ running (handleResize wd ht w) = running w
  /\ points (handleResize wd ht w) = points w
  /\ World.hud (handleResize wd ht w) = World.hud w.
Proof. unfold handleResize. cbn. by destruct (_ =? 0). Qed.

Lemma step_advance w e : isRestart e = false -> advance w (step host w e).
Proof.
  destruct e; cbn; try done; intros _;
    try (apply quiet_advance; by split).
  - destruct (handleResize_quiet wd ht w) as (Hh & Hm & Hr & Hp & Hu).
    split; rewrite ?Hh, ?Hm, ?Hr, ?Hp, ?Hu; auto; lia.
  - apply loop_advance.
Qed.

Lemma step_sound w e : sound w -> sound (step host w e).
Proof.
  intros Hs. destruct (isRestart e) eqn:He.
  - destruct e; try done. by apply restartGame_sound.
  - eapply advance_sound; [by apply step_advance | done].
Qed.

Lemma run_sound es : forall w, sound w -> sound (run host es w).
Proof.
  induction es as [| e es IH]; intros w Hs; [done |].
  cbn. apply IH, step_sound, Hs.
Qed.

Lemma session_sound es wd ht : sound (run host es (mount wd ht)).
Proof. apply run_sound, mount_sound. Qed.

Lemma run_advance es : forall w,
  forallb (fun e => negb (isRestart e)) es = true -> advance w (run host es w).
Proof.
  induction es as [| e es IH]; intros w Hes; cbn in *.
  - apply advance_refl.
  - apply andb_true_iff in Hes as [He Hes]. apply negb_true_iff in He.
    eapply advance_trans; [by apply step_advance | by apply IH].
Qed.

Lemma loop_idle w :
  running w = false ->
  World.gameState (loop host w) = World.gameState w
  /\ World.drawn (loop host w) = World.drawn w
  /\ World.randomCalls (loop host w) = World.randomCalls w
  /\ World.width (loop host w) = World.width w
  /\ World.height (loop host w) = World.height w.
Proof.
  intros Hr. rewrite (loop_stopped host w Hr). by destruct (_ <=? 0).
Qed.

Lemma frames_idle n : forall w,
  running w = false ->
  World.gameState (Nat.iter n (loop host) w) = World.gameState w
  /\ World.drawn (Nat.iter n (loop host) w) = World.drawn w
  /\ World.randomCalls (Nat.iter n (loop host) w) = World.randomCalls w.
Proof.
  induction n as [| n IH]; intros w Hr; [done |].
  change (Nat.iter (S n) (loop host) w) with (loop host (Nat.iter n (loop host) w)).
  destruct (IH w Hr) as (Hg & Hd & Hk).
  assert (Hr' : running (Nat.iter n (loop host) w) = false)
    by (unfold running; by rewrite Hg).
  destruct (loop_idle _ Hr') as (Hg' & Hd' & Hk' & _).
  by rewrite Hg', Hd', Hk'.
Qed.

(** C10. While the running flag is false a frame changes nothing in the
    simulation state: entities, particles, camera trauma, wave timer and
    frame count are those of the state before, no random number is drawn
    and no scene is drawn on the canvas; the same holds after any number
    of frames. *)
Theorem game_over_frames_are_idle (w : World A) :
  running w = false ->
  World.gameState (loop host w) = World.gameState w
  /\ World.drawn (loop host w) = World.drawn w
  /\ World.randomCalls (loop host w) = World.randomCalls w
  /\ forall n,
       World.gameState (Nat.iter n (loop host) w) = World.gameState w
       /\ World.drawn (Nat.iter n (loop host) w) = World.drawn w.
Proof.
  intros Hr. destruct (loop_idle w Hr) as (Hg & Hd & Hk & _).
  repeat split; try done; by apply frames_idle.
Qed.

Lemma loop_dead_stops (w : World A) :
  (running w = true -> 0 < health w) ->
  health (loop host w) <= 0 ->
  running (loop host w) = false.
Proof.
  intros Halive Hdead.
  apply (adv_dead _ _ (loop_advance host w)); [| done].
  intros Hh. destruct (running w); [| done]. specialize (Halive eq_refl). lia.
Qed.

(** C2. In any session, if the health is 0 or below after a tick then the
    running flag is false after that tick.  It stays false through every
    later event other than a restart, frames then leave the simulation
    state as it is, and [restartGame] sets the flag to true. *)
Theorem death_stops_the_session (es : list (Event (A := A))) (wd ht : Z) :
  let w := run host es (mount wd ht) in
  health (loop host w) <= 0 ->
  running (loop host w) = false
  /\ (forall later, forallb (fun e => negb (isRestart e)) later = true ->
        let w' := run host later (loop host w) in
        running w' = false
        /\ World.gameState (loop host w') = World.gameState w')
  /\ (forall later, running (restartGame (run host later (loop host w))) = true).
Proof.
  intros w Hdead.
  assert (Hstop : running (loop host w) = false)
    by (apply loop_dead_stops; [apply session_sound | done]).
  split; [done | split].
  - intros later Hlater w'.
    assert (Hr : running w' = false)
      by apply (adv_stopped _ _ (run_advance later _ Hlater)), Hstop.
    split; [done | by apply loop_idle].
  - done.
Qed.

(** C9. Through any sequence of events without a restart the score
    never decreases; the only update of the score, in the handling of a
    hit, leaves it as it is or adds the reward of the enemy killed, which
    is 10 or 50. *)
Theorem score_never_decreases (es : list (Event (A := A))) (w : World A) :
  forallb (fun e => negb (isRestart e)) es = true ->
  points w <= points (run host es w)
  /\ (forall i j bullet enemy w0,
        points (hit host i j bullet enemy w0) = points w0
        \/ (points (hit host i j bullet enemy w0)
            = points w0 + reward (Entity.type enemy)
            /\ (reward (Entity.type enemy) = 10
                \/ reward (Entity.type enemy) = 50))).
Proof.
  intros Hes. split.
  - apply (adv_points _ _ (run_advance es w Hes)).
  - intros i j bullet enemy w0. rewrite hit_points.
    destruct (lethal enemy); [right | left; lia].
    split; [done |]. destruct (Entity.type enemy); cbn; auto.
Qed.

(** C1, as amended.  In every state of a session the health is at most
    the maximum health, which is 100, and so is the health published to
    the HUD; both are integers.  A running game has positive health.  One
    tick never raises the health and lowers it by at most one point per
    enemy in play (those present before the tick and the one it may
    spawn), so the health is below 0 after a tick only if several
    enemies touched the player in it.  The width of the health bar,
    [max(0, health)], lies between 0 and 100. *)
Theorem health_bounds (es : list (Event (A := A))) (wd ht : Z) :
  let w := run host es (mount wd ht) in
  maxHealth w = 100
  /\ health w <= maxHealth w
  /\ Hud.health (World.hud w) <= 100
  /\ (running w = true -> 0 < health w)
  /\ health w - Z.of_nat (enemies w) - 1 <= health (loop host w) <= health w
  /\ 0 <= healthBarWidth (World.hud w) <= 100.
Proof.
  intros w. destruct (session_sound es wd ht) as [Hm Hh Hu Ha]. fold w in Hm, Hh, Hu, Ha.
  repeat split; try done; try lia.
  - apply loop_health.
  - apply loop_health.
  - unfold healthBarWidth. lia.
  - unfold healthBarWidth. lia.
Qed.

(** C6, as amended.  [restartGame] puts the player at the centre of the
    window and resets the health, the entities, the particles, the
    score, the wave timer, the running flag and the React state to the
    values they have when the component is mounted in a window of the
    current size.  It leaves the player's velocity, aim angle, cooldown
    and recoil, the camera trauma, the held keys, the mouse state and the
    frame count as they are. *)
Theorem restart_resets_part_of_the_state (w : World A) :
  let w' := restartGame w in
  let fresh := mount (A := A) (World.width w) (World.height w) in
  let player x := GameState.player (World.gameState x) in
  (Player.pos (player w') = Player.pos (player fresh)
   /\ health w' = health fresh
   /\ entitiesOf w' = entitiesOf fresh
   /\ particlesOf w' = particlesOf fresh
   /\ points w' = points fresh
   /\ GameState.waveTimer (World.gameState w')
      = GameState.waveTimer (World.gameState fresh)
   /\ running w' = running fresh
   /\ World.hud w' = World.hud fresh)
  /\ (health w' = 100 /\ entitiesOf w' = [] /\ particlesOf w' = []
      /\ points w' = 0 /\ running w' = true)
  /\ (Player.vel (player w') = Player.vel (player w)
      /\ Player.angle (player w') = Player.angle (player w)
      /\ Player.cooldown (player w') = Player.cooldown (player w)
      /\ Player.recoil (player w') = Player.recoil (player w)
      /\ maxHealth w' = maxHealth w
      /\ GameState.camera (World.gameState w') = GameState.camera (World.gameState w)
      /\ GameState.keys (World.gameState w') = GameState.keys (World.gameState w)
      /\ GameState.mouse (World.gameState w') = GameState.mouse (World.gameState w)
      /\ GameState.frameCount (World.gameState w')
         = GameState.frameCount (World.gameState w)).
Proof. cbn. repeat split. Qed.

End Sessions.

(** ** Concrete sessions *)

Section Replays.

Local Open Scope float_scope.

Definition among (n : nat) (l : list nat) : bool := existsb (Nat.eqb n) l.

(** *** A session that ends with negative health

    The window is 800 by 600, the pointer is moved to (500, 300) and
    nothing else is touched.  [ambush] lists the results of
    [Math.random()]: the calls that place an enemy answer 0.75 (left
    edge) and 0.5 (half-way down), the first two enemies are tanks
    (0.9 > 0.85), every other call answers 0.  All enemies walk along
    the line [y = 300] towards the player at (400, 300). *)
Definition ambush (n : nat) : float :=
  if among n [0; 4; 8; 12; 36; 240]%nat then 0.75
  else if among n [1; 5; 9; 13; 37; 241]%nat then 0.5
  else if among n [2; 6]%nat then 9 / 10
  else 0.

Definition idle (frames : nat) : list (Event (A := float)) :=
  MouseMove 500 300 :: repeat Frame frames.

(* The state after [frames] frames of that session. *)
Definition standing (frames : nat) : World float :=
  run (Table.host ambush) (idle frames) (mount 800 600).

(** C1 fails as stated: in the session above the player has 1 health
    point left after 635 frames and is touched by two enemies in frame
    636, which leaves the health, and the health shown to the HUD, at -1. *)
Lemma health_goes_negative :
  health (standing 635) = 1%Z
  /\ running (standing 635) = true
  /\ health (standing 636) = (-1)%Z
  /\ Hud.health (World.hud (standing 636)) = (-1)%Z
  /\ (health (standing 636) <? 0)%Z = true.
Proof. vm_compute. repeat split. Qed.

(* The session above dies in its frame 636. *)
Lemma death_stops_the_session_witness :
  let host := Table.host ambush in
  let w := run host (idle 635) (mount 800 600) in
  (health (loop host w) <= 0)%Z
  /\ running (loop host w) = false
  /\ (forall later, forallb (fun e => negb (isRestart e)) later = true ->
        let w' := run host later (loop host w) in
        running w' = false
        /\ World.gameState (loop host w') = World.gameState w')
  /\ (forall later, running (restartGame (run host later (loop host w))) = true).
Proof.
  assert (H : (health (loop (Table.host ambush)
                         (run (Table.host ambush) (idle 635) (mount 800 600))) <= 0)%Z)
    by (vm_compute; discriminate).
  exact (conj H (death_stops_the_session (Table.host ambush) (idle 635) 800 600 H)).
Defined.

(* After its last frame the session above is over. *)
Lemma game_over_frames_are_idle_witness :
  let w := standing 636 in
  let host := Table.host ambush in
  running w = false
  /\ World.gameState (loop host w) = World.gameState w
  /\ World.drawn (loop host w) = World.drawn w
  /\ World.randomCalls (loop host w) = World.randomCalls w
  /\ forall n,
       World.gameState (Nat.iter n (loop host) w) = World.gameState w
       /\ World.drawn (Nat.iter n (loop host) w) = World.drawn w.
Proof.
  assert (H1 : running (standing 636) = false) by (vm_compute; reflexivity).
  exact (conj H1 (game_over_frames_are_idle (Table.host ambush) (standing 636) H1)).
Defined.

(** *** Vectors too long or too short to normalise

    In binary64 the square of 2^600 is infinite and the square of 2^-600
    is 0. *)
Definition huge : Vector2 float := Vector2.mk 0x1p+600 0x1p+600.
Definition minute : Vector2 float := Vector2.mk 0x1p-600 0.


(** *** A death, then a restart

    The session of [standing] goes on: the player dies in frame 636,
    three more frames show the game-over screen, and its button is
    pressed. *)
Definition fallen : World float :=
  run (Table.host ambush) (idle 639) (mount 800 600).

Definition rebooted : World float :=
  run (Table.host ambush) (idle 639 ++ [Restart]) (mount 800 600).

(** C6 fails as stated: when the button of the game-over screen is
    pressed, the camera trauma left by the last blows, 22.5, survives the
    restart, while it is 0 when the session starts; so does the frame
    count, 636. *)
Lemma restart_keeps_trauma :
  (running fallen = false
   /\ (health fallen <=? 0)%Z = true
   /\ Hud.gameOver (World.hud fallen) = true)
  /\ rebooted = restartGame fallen
  /\ running rebooted = true
  /\ Camera.shake (GameState.camera (World.gameState rebooted)) = 22.5
  /\ Camera.shake (GameState.camera (World.gameState (mount (A := float) 800 600))) = 0
  /\ PrimFloat.eqb
       (Camera.shake (GameState.camera (World.gameState rebooted)))
       (Camera.shake (GameState.camera (World.gameState (mount (A := float) 800 600))))
     = false
  /\ GameState.frameCount (World.gameState rebooted) = 636%Z
  /\ GameState.frameCount (World.gameState (mount (A := float) 800 600)) = 0%Z.
Proof. vm_compute. repeat split. Qed.

(** *** One frame with two enemies at the player

    The player, at (400, 300) with 1 health point, has two fast enemies
    10 and 20 pixels to the left.  Both reach the player within the frame. *)
Definition fastAt (px py life : float) : Entity float :=
  Entity.with_life life (newZombie 0 false (Vector2.mk px py)).

(* A world with the given entities and health and nothing else going on;
   the pointer is at (500, 300). *)
Definition arena (currHealth : Z) (ents : list (Entity float)) : World float :=
  let w := handleMouseMove 500 300 (mount 800 600) in
  let gs := World.gameState w in
  World.with_gameState
    (GameState.with_entities ents
       (GameState.with_player
          (Player.with_currHealth currHealth (GameState.player gs)) gs)) w.

Definition cornered : World float := arena 1 [fastAt 390 300 30; fastAt 380 300 30].

Example cornered_loses_two_points :
  let w' := loop (Table.host (fun _ => 0)) cornered in
  health cornered = 1%Z
  /\ health w' = (-1)%Z
  /\ Hud.health (World.hud w') = (-1)%Z
  /\ running w' = false
  /\ (Vector2.x <$> (Entity.pos <$> entitiesOf w')) = [387.5; 376.5].
Proof. vm_compute. repeat split. Qed.

(** *** A bullet between two enemies *)

Definition bulletAt (px py vx : float) : Entity float :=
  newBullet 0 (Vector2.mk px py) (Vector2.mk vx 0) 0.

Definition crossfire : World float :=
  arena 100 [bulletAt 100 100 18; fastAt 105 100 30; fastAt 95 100 30].

Example crossfire_damages_the_first_enemy_only :
  let w' := bulletStep (Table.host (fun _ => 0)) 0 crossfire in
  (Entity.life <$> entitiesOf w') = [1; 5; 30]
  /\ (Entity.markedForDeletion <$> entitiesOf w') = [true; false; false]
  /\ overlaps (bulletAt 100 100 18) (fastAt 105 100 30) = true
  /\ overlaps (bulletAt 100 100 18) (fastAt 95 100 30) = true.
Proof. vm_compute. repeat split. Qed.


(** *** A kill *)

(* A fast enemy that an earlier hit left with 5 health, and the bullet
   that is about to reach it; the player stands at (400, 300). *)
Definition lastHit : World float :=
  arena 100 [bulletAt 300 300 (-18); fastAt 280 300 5].

Example lastHit_scores :
  let w' := loop (Table.host (fun _ => 0)) lastHit in
  points lastHit = 0%Z /\ points w' = 10%Z /\ Hud.score (World.hud w') = 10%Z
  /\ entitiesOf w' = []
  /\ length (particlesOf w') = 30%nat.
Proof. vm_compute. repeat split. Qed.

Lemma score_never_decreases_witness :
  let host := Table.host (fun _ => 0) in
  forallb (fun e => negb (isRestart e)) [Frame (A := float)] = true
  /\ (points lastHit <= points (run host [Frame] lastHit))%Z
  /\ (forall i j bullet enemy w0,
        points (hit host i j bullet enemy w0) = points w0
        \/ (points (hit host i j bullet enemy w0)
            = (points w0 + reward (Entity.type enemy))%Z
            /\ (reward (Entity.type enemy) = 10%Z
                \/ reward (Entity.type enemy) = 50%Z))).
Proof.
  exact (conj eq_refl
           (score_never_decreases (Table.host (fun _ => 0)) [Frame] lastHit eq_refl)).
Defined.

Definition dying : World float :=
  arena 100 [bulletAt 282 300 (-18); fastAt 282 300 5].

Lemma enemy_death_is_rewarded_once_witness :
  let host := Table.host (fun _ => 0) in
  let bullet := bulletAt 282 300 (-18) in
  let enemy := fastAt 282 300 5 in
  let w := dying in
  let w' := hit host 0 1 bullet enemy w in
  let k := World.randomCalls w in
  let at_ := Entity.pos (struck bullet enemy) in
  let blood1 := burst host at_ 15 BLOOD_COLOR_1 (ofZ 5) (ofZ 40) (k + 30) in
  let blood2 := burst host at_ 10 BLOOD_COLOR_2 (ofZ 4) (ofZ 30) (k + 120) in
  entitiesOf w !! 1%nat = Some enemy
  /\ lethal enemy = true
  /\ (exists e', entitiesOf w' !! 1%nat = Some e'
                 /\ Entity.markedForDeletion e' = true
                 /\ Entity.type e' = Entity.type enemy)
  /\ (forall gs : GameState float,
        Forall (fun e => Entity.markedForDeletion e = false)
               (GameState.entities (cleanup gs)))
  /\ points w' = (points w + reward (Entity.type enemy))%Z
  /\ Hud.score (World.hud w') = points w'
  /\ reward ZOMBIE_TANK = 50%Z /\ reward ZOMBIE_FAST = 10%Z
  /\ particlesOf w'
     = particlesOf w
       ++ burst host at_ 5 (Entity.color enemy) (ofZ 3) (ofZ 10) k
       ++ blood1 ++ blood2
  /\ length blood1 = 15%nat /\ length blood2 = 10%nat
  /\ Forall (fun p => Entity.color p = BLOOD_COLOR_1 /\ Entity.pos p = at_) blood1
  /\ Forall (fun p => Entity.color p = BLOOD_COLOR_2 /\ Entity.pos p = at_) blood2
  /\ BLOOD_COLOR_1 <> BLOOD_COLOR_2
  /\ (forall w0 : World float,
        points (collideBullets host w0)
        = (points w0
           + bounty (entitiesOf w0) (entitiesOf (collideBullets host w0)))%Z).
Proof.
  exact (conj eq_refl (conj eq_refl
           (enemy_death_is_rewarded_once (Table.host (fun _ => 0)) 0 1
              (bulletAt 282 300 (-18)) (fastAt 282 300 5) dying eq_refl eq_refl))).
Defined.

End Replays.

(** ** The frame, step by step *)

Section Effects.

Context {A : Type} {N : Number A}.
Variable host : Host A.

(* A step of the frame that touches the [gameState] ref only. *)
Definition onState (f : GameState A -> GameState A) (w : World A) : World A :=
  World.with_gameState (f (World.gameState w)) w.

(* state.frameCount++ followed by the player's movement and aim. *)
Definition steer (w : World A) : World A :=
  onState (fun gs =>
    aimPlayer host
      (movePlayer (World.width w) (World.height w)
         (GameState.with_frameCount (GameState.frameCount gs + 1) gs))) w.

Lemma update_steps w :
  update host w
  = onState cleanup
      (onState updateParticles
         (collideBullets host
            (updateEntities host
               (spawn host (onState decayRecoil (shoot host (steer w))))))).
Proof. reflexivity. Qed.

Definition playerOf (w : World A) : Player.t A := GameState.player (World.gameState w).
Definition cameraOf (w : World A) : Camera.t A := GameState.camera (World.gameState w).

(* What a step leaves alone when it only works on entities, particles,
   health, trauma, score and random numbers. *)
Record steady_rest (w w' : World A) : Prop := {
  rest_pos : Player.pos (playerOf w') = Player.pos (playerOf w);
  rest_vel : Player.vel (playerOf w') = Player.vel (playerOf w);
  rest_angle : Player.angle (playerOf w') = Player.angle (playerOf w);
  rest_cooldown : Player.cooldown (playerOf w') = Player.cooldown (playerOf w);
  rest_recoil : Player.recoil (playerOf w') = Player.recoil (playerOf w);
  rest_keys : GameState.keys (World.gameState w') = GameState.keys (World.gameState w);
  rest_mouse : GameState.mouse (World.gameState w') = GameState.mouse (World.gameState w);
  rest_waveTimer :
    GameState.waveTimer (World.gameState w') = GameState.waveTimer (World.gameState w);
  rest_frameCount :
    GameState.frameCount (World.gameState w') = GameState.frameCount (World.gameState w);
  rest_width : World.width w' = World.width w;
  rest_height : World.height w' = World.height w;
  rest_drawn : World.drawn w' = World.drawn w;
  rest_camera_x : Camera.x (cameraOf w') = Camera.x (cameraOf w);
  rest_camera_y : Camera.y (cameraOf w') = Camera.y (cameraOf w);
}.

Lemma steady_rest_refl w : steady_rest w w.
Proof. by split. Qed.

Lemma steady_rest_trans w1 w2 w3 :
  steady_rest w1 w2 -> steady_rest w2 w3 -> steady_rest w1 w3.
Proof. intros [] []. split; congruence. Qed.

Lemma createParticle_rest pos count color speed lifeBase w :
  steady_rest w (createParticle host pos count color speed lifeBase w).
Proof. rewrite createParticle_burst. by split. Qed.

Lemma touchPlayer_rest i ent dir w : steady_rest w (touchPlayer i ent dir w).
Proof. unfold touchPlayer. cbv zeta. destruct (_ <=? 0); by split. Qed.

Lemma updateEntity_rest i w : steady_rest w (updateEntity host i w).
Proof.
  unfold updateEntity.
  destruct (GameState.entities (World.gameState w) !! i) as [ent |];
    [| apply steady_rest_refl].
  destruct (isBULLET (Entity.type ent)); [by split |].
  destruct (startsWithZOMBIE (Entity.type ent)); [| apply steady_rest_refl].
  match goal with |- context [if nltb ?a ?b then _ else _] => destruct (nltb a b) end;
    [| by split].
  eapply steady_rest_trans; [| apply touchPlayer_rest]. by split.
Qed.

Lemma hit_rest i j bullet enemy w : steady_rest w (hit host i j bullet enemy w).
Proof.
  unfold hit, killEnemy. cbn -[createParticle burst].
  destruct (nleb _ _); rewrite !createParticle_burst; by split.
Qed.

Lemma bulletStep_rest i w : steady_rest w (bulletStep host i w).
Proof.
  destruct (bulletStep_cases host i w) as [-> | (j & b & e & _ & _ & _ & _ & ->)];
    [apply steady_rest_refl | apply hit_rest].
Qed.

Lemma fold_rel (R : World A -> World A -> Prop) (f : World A -> nat -> World A) l :
  (forall w, R w w) -> (forall w1 w2 w3, R w1 w2 -> R w2 w3 -> R w1 w3) ->
  (forall w i, R w (f w i)) -> forall w, R w (fold_left f l w).
Proof.
  intros Hrefl Htrans Hf. induction l as [| i l IH]; intros w; cbn; [done |].
  eapply Htrans; [apply Hf | apply IH].
Qed.

Lemma updateEntities_rest w : steady_rest w (updateEntities host w).
Proof.
  unfold updateEntities. apply (fold_rel steady_rest); [apply steady_rest_refl | apply steady_rest_trans |].
  intros; apply updateEntity_rest.
Qed.

Lemma collideBullets_rest w : steady_rest w (collideBullets host w).
Proof.
  unfold collideBullets. apply (fold_rel steady_rest); [apply steady_rest_refl | apply steady_rest_trans |].
  intros; apply bulletStep_rest.
Qed.

(* Everything in the frame after the spawning step. *)
Definition settle (w : World A) : World A :=
  onState cleanup
    (onState updateParticles (collideBullets host (updateEntities host w))).

Lemma settle_rest w : steady_rest w (settle w).
Proof.
  unfold settle.
  eapply steady_rest_trans; [apply updateEntities_rest |].
  eapply steady_rest_trans; [apply collideBullets_rest |]. by split.
Qed.

Lemma update_settle w :
  update host w = settle (spawn host (onState decayRecoil (shoot host (steer w)))).
Proof. reflexivity. Qed.

(** *** Steps that depend on vital signs only *)

(* A property of the health, the running flag, the score and the React
   state that survives every step of the update. *)
Lemma update_preserves (P : World A -> Prop) :
  (forall w w', quiet w w' -> P w -> P w') ->
  (forall w w', contact w w' -> P w -> P w') ->
  (forall i j bullet enemy w, P w -> P (hit host i j bullet enemy w)) ->
  forall w, P w -> P (update host w).
Proof.
  intros Hq Hc Hh w Hw. rewrite update_settle. unfold settle.
  apply (Hq _ _ (cleanup_quiet _)).
  apply (Hq _ _ (updateParticles_quiet _)).
  apply (fold_invariant P).
  { intros w1 i H1.
    destruct (bulletStep_cases host i w1) as [-> | (j & b & e & _ & _ & _ & _ & ->)];
      [done | by apply Hh]. }
  apply (fold_invariant P).
  { intros w1 i H1.
    destruct (updateEntity_cases host i w1) as [Hq1 | [Hc1 _]];
      [by apply (Hq _ _ Hq1) | by apply (Hc _ _ Hc1)]. }
  apply (Hq _ _ (spawn_quiet host _)).
  apply (Hq _ _ (decayRecoil_quiet _)).
  apply (Hq _ _ (shoot_quiet host _)).
  refine (Hq w _ _ Hw). by split.
Qed.

(** *** The HUD mirrors the simulation *)

Record mirrored (w : World A) : Prop := {
  mir_score : Hud.score (World.hud w) = points w;
  mir_health : Hud.health (World.hud w) = health w;
  mir_wave : Hud.wave (World.hud w) = 1;
  mir_points : 0 <= points w /\ (10 | points w);
  mir_stopped : running w = false -> health w <= 0;
  mir_over : Hud.gameOver (World.hud w) = true -> running w = false;
}.

Lemma quiet_mirrored w w' : quiet w w' -> mirrored w -> mirrored w'.
Proof.
  intros [Hh Hm Hr Hp Hu Hs] []. split; rewrite ?Hu, ?Hp, ?Hh, ?Hr; auto.
Qed.

Lemma contact_mirrored w w' : contact w w' -> mirrored w -> mirrored w'.
Proof.
  intros [Hh Hm Hr Hp Hu Hs] []. split; rewrite ?Hu, ?Hp; cbn; auto.
  - rewrite Hr. destruct (health w' <=? 0) eqn:E; [lia |].
    intros Hw. specialize (mir_stopped0 Hw). lia.
  - intros Hg. rewrite Hr. rewrite (mir_over0 Hg). by destruct (_ <=? 0).
Qed.

Lemma hit_mirrored i j bullet enemy w :
  mirrored w -> mirrored (hit host i j bullet enemy w).
Proof.
  intros [Hs Hh Hw [Hp0 Hp10] Hst Hov].
  destruct (hit_player host i j bullet enemy w) as (Hpl & Hr & Hhh & _).
  pose proof (hit_points host i j bullet enemy w) as Hpts.
  pose proof (hit_hud host i j bullet enemy w) as Hhud.
  assert (Hrew : 0 <= reward (Entity.type enemy) /\ (10 | reward (Entity.type enemy))).
  { destruct (Entity.type enemy); cbn; split; try lia;
      try (by exists 1); by exists 5. }
  destruct Hrew as [Hr0 Hr10].
  split; unfold health in *; rewrite ?Hpl, ?Hr, ?Hpts, ?Hhud; auto.
  - destruct (lethal enemy); cbn; lia.
  - destruct (lethal enemy); cbn; lia.
  - by destruct (lethal enemy).
  - destruct (lethal enemy); [| rewrite Z.add_0_r; by split].
    split; [lia | by apply Z.divide_add_r].
  - by destruct (lethal enemy).
Qed.

Lemma loop_mirrored w : mirrored w -> mirrored (loop host w).
Proof.
  intros Hm. destruct (running w) eqn:Hr.
  - rewrite (loop_running host w Hr).
    apply (quiet_mirrored _ _ (draw_quiet host _)).
    apply (update_preserves mirrored);
      [apply quiet_mirrored | apply contact_mirrored | | done].
    intros; by apply hit_mirrored.
  - rewrite (loop_stopped host w Hr). destruct (_ <=? 0); [| done].
    destruct Hm. split; cbn; auto.
Qed.

Lemma step_mirrored w e : mirrored w -> mirrored (step host w e).
Proof.
  intros Hm. destruct e; cbn; try (by destruct Hm; split).
  - destruct (handleResize_quiet wd ht w) as (Hh & Hx & Hr & Hp & Hu).
    destruct Hm. split; rewrite ?Hu, ?Hp, ?Hh, ?Hr; auto.
  - by apply loop_mirrored.
  - split; cbn; try done. split; [lia | by exists 0].
Qed.

Lemma session_mirrored es wd ht : mirrored (run host es (mount wd ht)).
Proof.
  assert (Hrun : forall es w, mirrored w -> mirrored (run host es w)).
  { clear es. induction es as [| e es IH]; intros w Hw; [done |].
    cbn. by apply IH, step_mirrored. }
  apply Hrun. split; cbn; try done. split; [lia | by exists 0].
Qed.

(** *** Properties of the stored entities *)

(* A property of an entity that no step of the frame destroys. *)
Record stable (P : Entity A -> Prop) : Prop := {
  st_pos : forall e p, P e -> P (Entity.with_pos p e);
  st_vel : forall e v, P e -> P (Entity.with_vel v e);
  st_angle : forall e a, P e -> P (Entity.with_angle a e);
  st_mark : forall e,
    isBULLET (Entity.type e) = true -> P e -> P (Entity.with_markedForDeletion true e);
  st_hit : forall b e,
    startsWithZOMBIE (Entity.type e) = true ->
    Entity.markedForDeletion e = false ->
    P e ->
    P (if lethal e then Entity.with_markedForDeletion true (struck b e)
       else struck b e);
  st_bullet : forall ident pos vel angle, P (newBullet ident pos vel angle);
  st_zombie : forall ident isTank pos, P (newZombie ident isTank pos);
}.

Lemma fire_entities w :
  exists ident pos vel angle,
    entitiesOf (fire host w) = entitiesOf w ++ [newBullet ident pos vel angle].
Proof.
  unfold fire. rewrite createParticle_entities. by eexists _, _, _, _.
Qed.

Lemma shoot_entities w :
  entitiesOf (shoot host w) = entitiesOf w
  \/ exists ident pos vel angle,
       entitiesOf (shoot host w) = entitiesOf w ++ [newBullet ident pos vel angle].
Proof.
  unfold shoot.
  set (w1 := World.with_gameState (coolDown (World.gameState w)) w).
  assert (Hc : entitiesOf w1 = entitiesOf w)
    by (unfold w1, entitiesOf, coolDown; cbn; by destruct (0 <? _)).
  destruct (_ && _); [| by left]. right.
  destruct (fire_entities w1) as (ident & pos & vel & angle & E).
  exists ident, pos, vel, angle. by rewrite E, Hc.
Qed.

Lemma spawn_entities w :
  entitiesOf (spawn host w) = entitiesOf w
  \/ exists ident isTank pos,
       entitiesOf (spawn host w) = entitiesOf w ++ [newZombie ident isTank pos].
Proof.
  unfold spawn. destruct (_ =? 0); [| by left]. right.
  unfold spawnZombie, entitiesOf. cbn. by eexists _, _, _.
Qed.

Lemma decayRecoil_entities w : entitiesOf (onState decayRecoil w) = entitiesOf w.
Proof. unfold onState, entitiesOf, decayRecoil. cbn. by destruct (nltb _ _). Qed.

Section Stable.

Variable P : Entity A -> Prop.
Hypothesis HP : stable P.

Ltac keep_updates :=
  cbn -[Entity.with_pos Entity.with_vel Entity.with_angle Entity.with_life
        Entity.with_markedForDeletion].

Ltac stable_updates :=
  repeat match goal with
         | |- P (Entity.with_pos _ _) => apply (st_pos P HP)
         | |- P (Entity.with_vel _ _) => apply (st_vel P HP)
         | |- P (Entity.with_angle _ _) => apply (st_angle P HP)
         end.

Lemma updateEntity_stable i w :
  Forall P (entitiesOf w) -> Forall P (entitiesOf (updateEntity host i w)).
Proof using HP.
  intros Hall. unfold updateEntity. fold (entitiesOf w).
  destruct (entitiesOf w !! i) as [ent |] eqn:Hi; [| done].
  pose proof (Forall_lookup_1 _ _ _ _ Hall Hi) as Hent.
  destruct (isBULLET (Entity.type ent)) eqn:Hb.
  { unfold entitiesOf in *. keep_updates. apply Forall_insert; [done |].
    destruct (_ || _); [apply (st_mark P HP); [done |] |]; by apply (st_pos P HP). }
  destruct (startsWithZOMBIE (Entity.type ent)); [| done].
  match goal with |- context [if nltb ?a ?b then _ else _] => destruct (nltb a b) end.
  - unfold touchPlayer, entitiesOf in *. cbv zeta. destruct (_ <=? 0); keep_updates;
      (apply Forall_insert; [apply Forall_insert; [done |] |]); stable_updates; done.
  - unfold entitiesOf in *. keep_updates. apply Forall_insert; [done |].
    stable_updates; done.
Qed.

Lemma bulletStep_stable i w :
  Forall P (entitiesOf w) -> Forall P (entitiesOf (bulletStep host i w)).
Proof using HP.
  intros Hall.
  destruct (bulletStep_cases host i w)
    as [-> | (j & b & e & Hi & Hb & Hj & Ht & ->)]; [done |].
  destruct (target_enemy _ _ Ht) as (Hz & Hm & _).
  rewrite hit_entities. apply Forall_insert.
  - apply Forall_insert; [done |]. apply (st_mark P HP); [done |].
    by eapply Forall_lookup_1.
  - apply (st_hit P HP); [done | done |]. by eapply Forall_lookup_1.
Qed.

Lemma settle_stable w :
  Forall P (entitiesOf w) -> Forall P (entitiesOf (settle w)).
Proof using HP.
  intros Hall. unfold settle, onState, entitiesOf. cbn.
  apply List.Forall_forall. intros e [He _]%List.filter_In. revert e He.
  apply List.Forall_forall.
  apply (fold_invariant (fun w => Forall P (entitiesOf w)));
    [intros; by apply bulletStep_stable |].
  apply (fold_invariant (fun w => Forall P (entitiesOf w)));
    [intros; by apply updateEntity_stable | done].
Qed.

Lemma update_stable w :
  Forall P (entitiesOf w) -> Forall P (entitiesOf (update host w)).
Proof using HP.
  intros Hall. rewrite update_settle. apply settle_stable.
  set (w1 := shoot host (steer w)).
  assert (H1 : Forall P (entitiesOf w1)).
  { destruct (shoot_entities (steer w)) as [E | (? & ? & ? & ? & E)];
      unfold w1; rewrite E; [done |].
    apply Forall_app. split; [done |]. apply Forall_singleton, (st_bullet P HP). }
  clearbody w1.
  assert (H2 : Forall P (entitiesOf (onState decayRecoil w1)))
    by (by rewrite decayRecoil_entities).
  destruct (spawn_entities (onState decayRecoil w1)) as [E | (? & ? & ? & E)]; rewrite E; [done |].
  apply Forall_app. split; [done |]. apply Forall_singleton, (st_zombie P HP).
Qed.

Lemma draw_entities w :
  entitiesOf (draw host w) = entitiesOf w /\ particlesOf (draw host w) = particlesOf w.
Proof. unfold draw. by destruct (nltb _ _). Qed.

Lemma loop_stable w :
  Forall P (entitiesOf w) -> Forall P (entitiesOf (loop host w)).
Proof using HP.
  intros Hall. destruct (running w) eqn:Hr.
  - rewrite (loop_running host w Hr).
    destruct (draw_entities (update host w)) as [-> _]. by apply update_stable.
  - unfold entitiesOf. by rewrite (loop_idle_gameState host w Hr).
Qed.

Lemma step_stable w e :
  Forall P (entitiesOf w) -> Forall P (entitiesOf (step host w e)).
Proof using HP.
  intros Hall. destruct e; cbn; try done.
  - unfold handleResize. cbn. by destruct (_ =? 0).
  - by apply loop_stable.
Qed.

Lemma session_stable es wd ht : Forall P (entitiesOf (run host es (mount wd ht))).
Proof using HP.
  assert (Hrun : forall es w, Forall P (entitiesOf w) ->
                              Forall P (entitiesOf (run host es w))).
  { clear es. induction es as [| e es IH]; intros w Hw; [done |].
    cbn. by apply IH, step_stable. }
  apply Hrun. unfold mount, handleResize. cbn. done.
Qed.

End Stable.

(** *** Properties of the stored particles *)

Lemma updateEntity_particles i w :
  particlesOf (updateEntity host i w) = particlesOf w.
Proof.
  unfold updateEntity.
  destruct (GameState.entities (World.gameState w) !! i) as [ent |]; [| done].
  destruct (isBULLET (Entity.type ent)); [done |].
  destruct (startsWithZOMBIE (Entity.type ent)); [| done].
  match goal with |- context [if nltb ?a ?b then _ else _] => destruct (nltb a b) end;
    [| done].
  unfold touchPlayer. cbv zeta. by destruct (_ <=? 0).
Qed.

Lemma fire_particles w :
  exists pos k,
    particlesOf (fire host w)
    = particlesOf w ++ burst host pos 3 MUZZLE_COLOR (ofZ 2) (ofZ 10) k.
Proof. unfold fire. rewrite createParticle_burst. by eexists _, _. Qed.

Lemma shoot_particles w :
  particlesOf (shoot host w) = particlesOf w
  \/ exists pos k,
       particlesOf (shoot host w)
       = particlesOf w ++ burst host pos 3 MUZZLE_COLOR (ofZ 2) (ofZ 10) k.
Proof.
  unfold shoot.
  set (w1 := World.with_gameState (coolDown (World.gameState w)) w).
  assert (Hc : particlesOf w1 = particlesOf w)
    by (unfold w1, particlesOf, coolDown; cbn; by destruct (0 <? _)).
  destruct (_ && _); [| by left]. right.
  destruct (fire_particles w1) as (pos & k & E).
  exists pos, k. by rewrite E, Hc.
Qed.

Lemma spawn_particles w : particlesOf (spawn host w) = particlesOf w.
Proof. unfold spawn. by destruct (_ =? 0). Qed.

Lemma decayRecoil_particles w : particlesOf (onState decayRecoil w) = particlesOf w.
Proof. unfold onState, particlesOf, decayRecoil. cbn. by destruct (nltb _ _). Qed.

Section StableParticles.

Variable Q : Entity A -> Prop.
Hypothesis Qnew : forall pos color speed lifeBase k,
  lifeBase = ofZ 10 \/ lifeBase = ofZ 30 \/ lifeBase = ofZ 40 ->
  Q (newParticle host pos color speed lifeBase k).
Hypothesis Qstep : forall p, Q p -> Q (updateParticle p).

Lemma burst_Forall pos count color speed lifeBase k :
  lifeBase = ofZ 10 \/ lifeBase = ofZ 30 \/ lifeBase = ofZ 40 ->
  Forall Q (burst host pos count color speed lifeBase k).
Proof using Qnew.
  intros Hb. revert k. induction count as [| n IH]; intros k; cbn; [done |].
  apply Forall_cons. split; [by apply Qnew | apply IH].
Qed.

Lemma bulletStep_particles i w :
  Forall Q (particlesOf w) -> Forall Q (particlesOf (bulletStep host i w)).
Proof using Qnew.
  intros Hall.
  destruct (bulletStep_cases host i w)
    as [-> | (j & b & e & _ & _ & _ & _ & ->)]; [done |].
  rewrite hit_particles. rewrite !Forall_app. split; [done | split].
  - apply burst_Forall. auto.
  - destruct (lethal e); [| done]. apply Forall_app; split; apply burst_Forall; auto.
Qed.

Lemma settle_particles w :
  Forall Q (particlesOf w) -> Forall Q (particlesOf (settle w)).
Proof using Qnew Qstep.
  intros Hall. unfold settle, onState, particlesOf. cbn.
  apply List.Forall_forall. intros p [Hp _]%List.filter_In.
  apply List.in_map_iff in Hp as (p0 & <- & Hp0). apply Qstep.
  revert p0 Hp0. apply List.Forall_forall.
  apply (fold_invariant (fun w => Forall Q (particlesOf w)));
    [intros; by apply bulletStep_particles |].
  apply (fold_invariant (fun w => Forall Q (particlesOf w))); [| done].
  intros w1 i H1. by rewrite updateEntity_particles.
Qed.

Lemma update_particles w :
  Forall Q (particlesOf w) -> Forall Q (particlesOf (update host w)).
Proof using Qnew Qstep.
  intros Hall. rewrite update_settle. apply settle_particles.
  rewrite spawn_particles, decayRecoil_particles.
  destruct (shoot_particles (steer w)) as [E | (pos & k & E)]; rewrite E; [done |].
  apply Forall_app. split; [done | apply burst_Forall; auto].
Qed.

Lemma loop_particles w :
  Forall Q (particlesOf w) -> Forall Q (particlesOf (loop host w)).
Proof using Qnew Qstep.
  intros Hall. destruct (running w) eqn:Hr.
  - rewrite (loop_running host w Hr).
    destruct (draw_entities (update host w)) as [_ ->]. by apply update_particles.
  - unfold particlesOf. by rewrite (loop_idle_gameState host w Hr).
Qed.

Lemma session_particles es wd ht :
  Forall Q (particlesOf (run host es (mount wd ht))).
Proof using Qnew Qstep.
  assert (Hrun : forall es w, Forall Q (particlesOf w) ->
                              Forall Q (particlesOf (run host es w))).
  { clear es. induction es as [| e es IH]; intros w Hw; [done |].
    cbn. apply IH. destruct e; cbn; try done.
    - unfold handleResize. cbn. by destruct (_ =? 0).
    - by apply loop_particles. }
  apply Hrun. unfold mount, handleResize. cbn. done.
Qed.

End StableParticles.

(** *** The sweep *)

Definition unmarked (e : Entity A) : Prop := Entity.markedForDeletion e = false.

Lemma filter_notMarked (l : list (Entity A)) : Forall unmarked (List.filter notMarked l).
Proof.
  apply List.Forall_forall. intros e [_ He]%List.filter_In.
  by apply negb_true_iff in He.
Qed.

Lemma loop_swept w :
  running w = true ->
  Forall unmarked (entitiesOf (loop host w))
  /\ Forall unmarked (particlesOf (loop host w)).
Proof.
  intros Hr. rewrite (loop_running host w Hr).
  destruct (draw_entities (update host w)) as [-> ->].
  rewrite update_settle. unfold settle, onState, entitiesOf, particlesOf. cbn.
  split; apply filter_notMarked.
Qed.

Lemma session_swept es wd ht :
  Forall unmarked (entitiesOf (run host es (mount wd ht)))
  /\ Forall unmarked (particlesOf (run host es (mount wd ht))).
Proof.
  assert (Hrun : forall es w,
    Forall unmarked (entitiesOf w) /\ Forall unmarked (particlesOf w) ->
    Forall unmarked (entitiesOf (run host es w))
    /\ Forall unmarked (particlesOf (run host es w))).
  { clear es. induction es as [| e es IH]; intros w Hw; [done |].
    cbn. apply IH. destruct e; cbn; try done.
    - unfold handleResize. cbn. by destruct (_ =? 0).
    - destruct (running w) eqn:Hr; [by apply loop_swept |].
      unfold entitiesOf, particlesOf. by rewrite (loop_idle_gameState host w Hr). }
  apply Hrun. unfold mount, handleResize. cbn. done.
Qed.

(** *** Clocks and cooldown *)

Definition frameCountOf (w : World A) : Z := GameState.frameCount (World.gameState w).
Definition waveTimerOf (w : World A) : Z := GameState.waveTimer (World.gameState w).
Definition cooldownOf (w : World A) : Z := Player.cooldown (playerOf w).

(* A step that leaves both clocks and the cooldown alone. *)
Definition timeless (w w' : World A) : Prop :=
  frameCountOf w' = frameCountOf w /\ waveTimerOf w' = waveTimerOf w
  /\ cooldownOf w' = cooldownOf w.

Lemma rest_timeless w w' : steady_rest w w' -> timeless w w'.
Proof. intros []. by repeat split. Qed.

Lemma draw_timeless w : timeless w (draw host w).
Proof. unfold draw. by destruct (nltb _ _). Qed.

Lemma decayRecoil_timeless w : timeless w (onState decayRecoil w).
Proof.
  unfold timeless, frameCountOf, waveTimerOf, cooldownOf, playerOf, onState, decayRecoil.
  cbn. by destruct (nltb _ _).
Qed.

Lemma spawn_clock w :
  frameCountOf (spawn host w) = frameCountOf w
  /\ waveTimerOf (spawn host w) = waveTimerOf w + 1
  /\ cooldownOf (spawn host w) = cooldownOf w.
Proof. unfold spawn. by destruct (_ =? 0). Qed.

(* Whether the shooting step of this frame fires. *)
Definition fires (w : World A) : bool :=
  Mouse.down (GameState.mouse (World.gameState w)) && (cooldownOf w <=? 1).

Lemma fire_clock w :
  frameCountOf (fire host w) = frameCountOf w
  /\ waveTimerOf (fire host w) = waveTimerOf w
  /\ cooldownOf (fire host w) = FIRERATE.
Proof. unfold fire. by rewrite createParticle_burst. Qed.

Lemma coolDown_clock w :
  frameCountOf (onState coolDown w) = frameCountOf w
  /\ waveTimerOf (onState coolDown w) = waveTimerOf w
  /\ cooldownOf (onState coolDown w)
     = (if 0 <? cooldownOf w then cooldownOf w - 1 else cooldownOf w)
  /\ GameState.mouse (World.gameState (onState coolDown w))
     = GameState.mouse (World.gameState w).
Proof.
  unfold onState, coolDown, frameCountOf, waveTimerOf, cooldownOf, playerOf. cbn.
  by destruct (0 <? _).
Qed.

Lemma shoot_unfold w :
  shoot host w
  = if Mouse.down (GameState.mouse (World.gameState (onState coolDown w)))
       && (cooldownOf (onState coolDown w) <=? 0)
    then fire host (onState coolDown w) else onState coolDown w.
Proof. reflexivity. Qed.

Lemma shoot_fires w :
  shoot host w
  = if fires w then fire host (onState coolDown w) else onState coolDown w.
Proof.
  rewrite shoot_unfold. destruct (coolDown_clock w) as (_ & _ & Hc & ->).
  rewrite Hc. unfold fires.
  assert (E : ((if 0 <? cooldownOf w then cooldownOf w - 1 else cooldownOf w) <=? 0)
              = (cooldownOf w <=? 1)).
  { destruct (0 <? cooldownOf w) eqn:E0;
      destruct (_ <=? 0) eqn:E1; destruct (_ <=? 1) eqn:E2; lia. }
  by rewrite E.
Qed.

Lemma shoot_clock w :
  frameCountOf (shoot host w) = frameCountOf w
  /\ waveTimerOf (shoot host w) = waveTimerOf w
  /\ cooldownOf (shoot host w)
     = if fires w then FIRERATE
       else if 0 <? cooldownOf w then cooldownOf w - 1 else cooldownOf w.
Proof.
  rewrite shoot_fires. destruct (coolDown_clock w) as (Hf & Hw & Hc & _).
  destruct (fires w); [| done].
  destruct (fire_clock (onState coolDown w)) as (-> & -> & ->). done.
Qed.

Lemma steer_clock w :
  frameCountOf (steer w) = frameCountOf w + 1
  /\ waveTimerOf (steer w) = waveTimerOf w
  /\ cooldownOf (steer w) = cooldownOf w.
Proof. done. Qed.

Lemma loop_clock w :
  running w = true ->
  frameCountOf (loop host w) = frameCountOf w + 1
  /\ waveTimerOf (loop host w) = waveTimerOf w + 1
  /\ cooldownOf (loop host w)
     = if fires w then FIRERATE
       else if 0 <? cooldownOf w then cooldownOf w - 1 else cooldownOf w.
Proof.
  intros Hr. rewrite (loop_running host w Hr), update_settle.
  destruct (draw_timeless
              (settle (spawn host (onState decayRecoil (shoot host (steer w))))))
    as (-> & -> & ->).
  destruct (rest_timeless _ _
              (settle_rest (spawn host (onState decayRecoil (shoot host (steer w))))))
    as (-> & -> & ->).
  destruct (spawn_clock (onState decayRecoil (shoot host (steer w))))
    as (-> & -> & ->).
  destruct (decayRecoil_timeless (shoot host (steer w))) as (-> & -> & ->).
  destruct (shoot_clock (steer w)) as (-> & -> & ->).
  by repeat split.
Qed.

Record timed (w : World A) : Prop := {
  timed_wave : 0 <= waveTimerOf w <= frameCountOf w;
  timed_cooldown : 0 <= cooldownOf w <= FIRERATE;
}.

Lemma loop_timed w : timed w -> timed (loop host w).
Proof.
  intros [Hw Hc]. destruct (running w) eqn:Hr.
  - destruct (loop_clock w Hr) as (Hf & Hwt & Hcd).
    split; rewrite ?Hf, ?Hwt, ?Hcd; [lia |].
    unfold FIRERATE in *. destruct (fires w); [lia |].
    destruct (0 <? cooldownOf w) eqn:E; lia.
  - split; unfold waveTimerOf, frameCountOf, cooldownOf, playerOf in *;
      by rewrite (loop_idle_gameState host w Hr).
Qed.

Lemma session_timed es wd ht : timed (run host es (mount wd ht)).
Proof.
  assert (Hrun : forall es w, timed w -> timed (run host es w)).
  { clear es. induction es as [| e es IH]; intros w Hw; [done |].
    cbn. apply IH. destruct e; cbn; try (destruct Hw as [H1 H2]; by split).
    - destruct Hw as [H1 H2]. split;
        unfold handleResize, waveTimerOf, frameCountOf, cooldownOf, playerOf in *;
        cbn; by destruct (_ =? 0).
    - by apply loop_timed.
    - destruct Hw as [H1 H2]. split; [| done].
      unfold waveTimerOf, frameCountOf in *. cbn. lia. }
  apply Hrun. split; unfold FIRERATE; cbn; lia.
Qed.

End Effects.


(** ** Further properties of the game *)

Section Bookkeeping.

Context {A : Type} {N : Number A}.
Variable host : Host A.

(** X1. In every state of a session the values published to the HUD are
    those of the simulation: the displayed score is the score, the
    displayed health is the current health, and the wave number is 1,
    since nothing ever advances it. *)
Theorem hud_mirrors_the_simulation (es : list (Event (A := A))) (wd ht : Z) :
  let w := run host es (mount wd ht) in
  Hud.score (World.hud w) = points w
  /\ Hud.health (World.hud w) = health w
  /\ Hud.wave (World.hud w) = 1.
Proof. intros w. by destruct (session_mirrored host es wd ht). Qed.

(** X2. In every state of a session the score is a non-negative multiple
    of 10. *)
Theorem score_is_a_multiple_of_ten (es : list (Event (A := A))) (wd ht : Z) :
  let w := run host es (mount wd ht) in
  0 <= points w /\ exists n, points w = 10 * n.
Proof.
  intros w. destruct (session_mirrored host es wd ht) as [_ _ _ [H0 [n Hn]] _ _].
  split; [done |]. exists n. fold w in Hn. lia.
Qed.

(** X3. In every state of a session the game is running exactly when the
    player has health left.  The game-over overlay is shown only when the
    game has stopped; the first frame after the stop shows it, and
    [restartGame] hides it. *)
Theorem running_exactly_while_alive (es : list (Event (A := A))) (wd ht : Z) :
  let w := run host es (mount wd ht) in
  (running w = true <-> 0 < health w)
  /\ (Hud.gameOver (World.hud w) = true -> running w = false)
  /\ (running w = false -> Hud.gameOver (World.hud (loop host w)) = true)
  /\ Hud.gameOver (World.hud (restartGame w)) = false.
Proof.
  intros w.
  destruct (session_mirrored host es wd ht) as [_ _ _ _ Hstop Hover].
  destruct (session_sound host es wd ht) as [_ _ _ Halive].
  fold w in Hstop, Hover, Halive.
  split_and!; try done.
  - split; [done |]. intros Hh. destruct (running w); [done |].
    specialize (Hstop eq_refl). lia.
  - intros Hr. rewrite (loop_stopped host w Hr).
    specialize (Hstop Hr). by replace (health w <=? 0) with true by lia.
Qed.

(** X4. Whatever is marked for removal during a frame is gone when the
    frame ends: after a running frame, and so in every state of a session,
    no entity and no particle is marked. *)
Theorem no_marked_entity_outlives_its_frame :
  (forall w : World A, running w = true ->
     Forall unmarked (entitiesOf (loop host w))
     /\ Forall unmarked (particlesOf (loop host w)))
  /\ (forall (es : list (Event (A := A))) wd ht,
        Forall unmarked (entitiesOf (run host es (mount wd ht)))
        /\ Forall unmarked (particlesOf (run host es (mount wd ht)))).
Proof. split; [apply loop_swept | apply session_swept]. Qed.

(* The constants of an entity's kind. *)
Definition shaped (e : Entity A) : Prop :=
  match Entity.type e with
  | BULLET =>
      Entity.radius e = ofZ 3 /\ Entity.color e = BULLET_COLOR
      /\ Entity.maxLife e = ofZ 1
  | ZOMBIE_TANK =>
      Entity.radius e = ofZ 25 /\ Entity.color e = ZOMBIE_TANK_COLOR
      /\ Entity.maxLife e = ofZ 100
  | ZOMBIE_FAST =>
      Entity.radius e = ofZ 12 /\ Entity.color e = ZOMBIE_FAST_COLOR
      /\ Entity.maxLife e = ofZ 30
  | PLAYER | PARTICLE => False
  end.

Lemma shaped_stable : stable shaped.
Proof.
  split; try done.
  - intros b e _ _. unfold struck. by destruct (lethal e).
  - intros ident [] pos; by cbn.
Qed.

(** X5. In every state of a session the entity list holds bullets and
    enemies only, each with the radius, colour and full health of its
    kind (3 for a bullet, 25 and 100 for a tank, 12 and 30 for a fast
    enemy), and the particle list holds particles only. *)
Theorem the_store_holds_what_it_should (es : list (Event (A := A))) (wd ht : Z) :
  let w := run host es (mount wd ht) in
  Forall shaped (entitiesOf w)
  /\ Forall (fun p => Entity.type p = PARTICLE) (particlesOf w).
Proof.
  intros w. split.
  - apply session_stable, shaped_stable.
  - apply session_particles; [done |].
    intros p Hp. unfold updateParticle. cbn. by destruct (nleb _ _).
Qed.

(** X6. Pressing a key makes it held and releasing it makes it not held,
    whatever was held before; no other key is affected, and neither
    handler touches anything but the set of held keys. *)
Theorem key_down_up_round_trip (code : string) (w : World A) :
  keyHeld code (World.gameState (handleKeyDown code w)) = true
  /\ keyHeld code (World.gameState (handleKeyUp code w)) = false
  /\ keyHeld code (World.gameState (handleKeyUp code (handleKeyDown code w))) = false
  /\ (forall other, other <> code ->
        keyHeld other (World.gameState (handleKeyDown code w))
        = keyHeld other (World.gameState w)
        /\ keyHeld other (World.gameState (handleKeyUp code w))
           = keyHeld other (World.gameState w))
  /\ GameState.with_keys (GameState.keys (World.gameState w))
       (World.gameState (handleKeyDown code w)) = World.gameState w
  /\ GameState.with_keys (GameState.keys (World.gameState w))
       (World.gameState (handleKeyUp code w)) = World.gameState w.
Proof.
  unfold keyHeld, handleKeyDown, handleKeyUp. cbn. split_and!.
  - apply bool_decide_eq_true. set_solver.
  - apply bool_decide_eq_false. set_solver.
  - apply bool_decide_eq_false. set_solver.
  - intros other Hne. split; apply bool_decide_ext; set_solver.
  - by destruct w as [[] ? ? ? ? ?].
  - by destruct w as [[] ? ? ? ? ?].
Qed.

(** X7. The shooting step fires exactly when the button is down and the
    cooldown is at most 1: it then appends one unmarked bullet and sets
    the cooldown to 8.  Otherwise it adds nothing, and with a cooldown of
    2 or more it cannot fire and lowers the cooldown by 1, so at least 7
    frames pass between two shots.  In every state of a session the
    cooldown is between 0 and 8. *)
Theorem one_shot_per_fire_rate :
  (forall w : World A,
     Mouse.down (GameState.mouse (World.gameState w)) = true ->
     cooldownOf w <= 1 ->
     cooldownOf (shoot host w) = 8
     /\ exists bullet,
          entitiesOf (shoot host w) = entitiesOf w ++ [bullet]
          /\ Entity.type bullet = BULLET
          /\ Entity.markedForDeletion bullet = false)
  /\ (forall w : World A,
        Mouse.down (GameState.mouse (World.gameState w)) = false
        \/ 2 <= cooldownOf w ->
        entitiesOf (shoot host w) = entitiesOf w
        /\ particlesOf (shoot host w) = particlesOf w
        /\ cooldownOf (shoot host w)
           = if 0 <? cooldownOf w then cooldownOf w - 1 else cooldownOf w)
  /\ (forall (es : list (Event (A := A))) wd ht,
        0 <= cooldownOf (run host es (mount wd ht)) <= 8).
Proof.
  split_and!.
  - intros w Hd Hc.
    assert (Hf : fires w = true).
    { unfold fires. rewrite Hd. cbn. lia. }
    destruct (shoot_clock host w) as (_ & _ & Hcd). rewrite Hf in Hcd.
    split; [done |]. rewrite shoot_fires, Hf.
    destruct (fire_entities host (onState coolDown w)) as (ident & pos & vel & angle & E).
    exists (newBullet ident pos vel angle). split; [| done].
    rewrite E. f_equal. unfold onState, entitiesOf, coolDown. cbn. by destruct (0 <? _).
  - intros w Hno.
    assert (Hf : fires w = false).
    { unfold fires. destruct Hno as [-> | Hc]; [done |].
      apply andb_false_iff. right. lia. }
    destruct (shoot_clock host w) as (_ & _ & Hcd). rewrite Hf in Hcd.
    rewrite shoot_fires, Hf. split_and!; [| | by rewrite shoot_fires, Hf in Hcd];
      unfold onState, entitiesOf, particlesOf, coolDown; cbn; by destruct (0 <? _).
  - intros es wd ht. apply (timed_cooldown _ (session_timed host es wd ht)).
Qed.

(** X8. Restarting twice is the same as restarting once, and restarting a
    freshly mounted game changes nothing. *)
Theorem restart_is_idempotent :
  (forall w : World A, restartGame (restartGame w) = restartGame w)
  /\ (forall wd ht, restartGame (mount (A := A) wd ht) = mount wd ht).
Proof. split; reflexivity. Qed.

(** X9. A running frame advances the frame count and the wave timer by
    one each.  In every state of a session the wave timer is between 0
    and the frame count, which no event ever lowers; so once a frame has
    run, resizing the window changes the canvas size only, while before
    the first frame it also moves the player to the new centre. *)
Theorem clocks_and_resize :
  (forall w : World A, running w = true ->
     frameCountOf (loop host w) = frameCountOf w + 1
     /\ waveTimerOf (loop host w) = waveTimerOf w + 1)
  /\ (forall (es : list (Event (A := A))) wd ht,
        0 <= waveTimerOf (run host es (mount wd ht))
          <= frameCountOf (run host es (mount wd ht)))
  /\ (forall (w : World A) e, frameCountOf w <= frameCountOf (step host w e))
  /\ (forall (w : World A) wd ht,
        frameCountOf w <> 0 ->
        World.gameState (handleResize wd ht w) = World.gameState w)
  /\ (forall (w : World A) wd ht,
        frameCountOf w = 0 ->
        Player.pos (playerOf (handleResize wd ht w))
        = Vector2.mk (ndiv (ofZ wd) (ofZ 2)) (ndiv (ofZ ht) (ofZ 2))).
Proof.
  split_and!.
  - intros w Hr. destruct (loop_clock host w Hr) as (? & ? & _). by split.
  - intros es wd ht. apply (timed_wave _ (session_timed host es wd ht)).
  - intros w e. destruct e; cbn; try done.
    + unfold handleResize, frameCountOf. cbn. by destruct (_ =? 0).
    + destruct (running w) eqn:Hr.
      * destruct (loop_clock host w Hr) as (-> & _). lia.
      * unfold frameCountOf. by rewrite (loop_idle_gameState host w Hr).
  - intros w wd ht Hf. unfold handleResize, frameCountOf in *. cbn.
    by destruct (_ =? 0) eqn:E; [lia |].
  - intros w wd ht Hf. unfold handleResize, frameCountOf, playerOf in *. cbn.
    by rewrite Hf.
Qed.

End Bookkeeping.

(** ** The camera and the player's body through a frame *)

Section Motion.

Context {A : Type} {N : Number A}.
Variable host : Host A.

Definition shakeOf (w : World A) : A := Camera.shake (cameraOf w).

(* The trauma after the decay of the drawing step. *)
Definition decayed (shake : A) : A :=
  let shake := nmul shake (lit 9 10) in
  if nltb shake (lit 5 10) then ofZ 0 else shake.

(* The trauma after addTrauma(amount). *)
Definition shaken (amount : Z) (shake : A) : A := nmin (nadd shake (ofZ amount)) (ofZ 25).

Lemma draw_shake w :
  shakeOf (draw host w)
  = if nltb (ofZ 0) (shakeOf w) then decayed (shakeOf w) else shakeOf w.
Proof. unfold draw, shakeOf, cameraOf, decayed. by destruct (nltb _ _). Qed.

Lemma createParticle_shake pos count color speed lifeBase w :
  shakeOf (createParticle host pos count color speed lifeBase w) = shakeOf w.
Proof. by rewrite createParticle_burst. Qed.

Lemma updateEntity_shake i w :
  shakeOf (updateEntity host i w) = shakeOf w
  \/ shakeOf (updateEntity host i w) = shaken 10 (shakeOf w).
Proof.
  unfold updateEntity.
  destruct (GameState.entities (World.gameState w) !! i) as [ent |]; [| by left].
  destruct (isBULLET (Entity.type ent)); [by left |].
  destruct (startsWithZOMBIE (Entity.type ent)); [| by left].
  match goal with |- context [if nltb ?a ?b then _ else _] => destruct (nltb a b) end;
    [| by left].
  right. unfold touchPlayer. cbv zeta. by destruct (_ <=? 0).
Qed.

Lemma hit_shake i j bullet enemy w :
  shakeOf (hit host i j bullet enemy w)
  = if lethal enemy then shaken 8 (shakeOf w) else shakeOf w.
Proof.
  unfold hit, killEnemy, lethal, shakeOf, cameraOf. cbn -[createParticle burst].
  destruct (nleb _ _); by rewrite !createParticle_burst.
Qed.

Lemma fire_shake w : shakeOf (fire host w) = shaken 4 (shakeOf w).
Proof. unfold fire. by rewrite createParticle_shake. Qed.

Lemma shoot_shake w :
  shakeOf (shoot host w) = if fires w then shaken 4 (shakeOf w) else shakeOf w.
Proof.
  rewrite shoot_fires.
  assert (Hc : shakeOf (onState coolDown w) = shakeOf w)
    by (unfold shakeOf, cameraOf, onState, coolDown; cbn; by destruct (0 <? _)).
  destruct (fires w); [| done]. by rewrite fire_shake, Hc.
Qed.

Lemma spawn_shake w : shakeOf (spawn host w) = shakeOf w.
Proof. unfold spawn. by destruct (_ =? 0). Qed.

Lemma decayRecoil_shake w : shakeOf (onState decayRecoil w) = shakeOf w.
Proof. unfold shakeOf, cameraOf, onState, decayRecoil. cbn. by destruct (nltb _ _). Qed.

Section StableShake.

Variable C : A -> Prop.
Hypothesis Cshaken : forall s, C s -> C (shaken 4 s) /\ C (shaken 8 s) /\ C (shaken 10 s).
Hypothesis Cdecayed : forall s, C s -> C (decayed s).
Hypothesis Czero : C (ofZ 0).

Lemma update_shake w : C (shakeOf w) -> C (shakeOf (update host w)).
Proof using Cshaken.
  intros Hw. rewrite update_settle. unfold settle.
  change (C (shakeOf (collideBullets host (updateEntities host
             (spawn host (onState decayRecoil (shoot host (steer host w)))))))).
  apply (fold_invariant (fun w => C (shakeOf w))).
  { intros w1 i H1.
    destruct (bulletStep_cases host i w1)
      as [-> | (j & b & e & _ & _ & _ & _ & ->)]; [done |].
    rewrite hit_shake. destruct (lethal e); [by apply Cshaken | done]. }
  apply (fold_invariant (fun w => C (shakeOf w))).
  { intros w1 i H1.
    destruct (updateEntity_shake i w1) as [-> | ->]; [done | by apply Cshaken]. }
  rewrite spawn_shake, decayRecoil_shake, shoot_shake.
  destruct (fires _); [by apply Cshaken | done].
Qed.

Lemma loop_shake w : C (shakeOf w) -> C (shakeOf (loop host w)).
Proof using Cshaken Cdecayed.
  intros Hw. destruct (running w) eqn:Hr.
  - rewrite (loop_running host w Hr), draw_shake.
    pose proof (update_shake w Hw) as Hu.
    destruct (nltb _ _); [by apply Cdecayed | done].
  - unfold shakeOf, cameraOf. by rewrite (loop_idle_gameState host w Hr).
Qed.

Lemma session_shake es wd ht : C (shakeOf (run host es (mount wd ht))).
Proof using Cshaken Cdecayed Czero.
  assert (Hrun : forall es w, C (shakeOf w) -> C (shakeOf (run host es w))).
  { clear es. induction es as [| e es IH]; intros w Hw; [done |].
    cbn. apply IH. destruct e; cbn; try done.
    - unfold handleResize, shakeOf, cameraOf in *. cbn. by destruct (_ =? 0).
    - by apply loop_shake. }
  apply Hrun. unfold mount, handleResize. cbn. done.
Qed.

End StableShake.

(** *** Position and velocity *)

Lemma fire_body w :
  Player.pos (playerOf (fire host w)) = Player.pos (playerOf w)
  /\ Player.vel (playerOf (fire host w)) = Player.vel (playerOf w).
Proof. unfold fire. by rewrite createParticle_burst. Qed.

Lemma shoot_body w :
  Player.pos (playerOf (shoot host w)) = Player.pos (playerOf w)
  /\ Player.vel (playerOf (shoot host w)) = Player.vel (playerOf w).
Proof.
  rewrite shoot_fires.
  assert (Hc : Player.pos (playerOf (onState coolDown w)) = Player.pos (playerOf w)
               /\ Player.vel (playerOf (onState coolDown w)) = Player.vel (playerOf w))
    by (unfold playerOf, onState, coolDown; cbn; by destruct (0 <? _)).
  destruct (fires w); [| done].
  destruct (fire_body (onState coolDown w)) as [-> ->]. done.
Qed.

Lemma spawn_body w :
  Player.pos (playerOf (spawn host w)) = Player.pos (playerOf w)
  /\ Player.vel (playerOf (spawn host w)) = Player.vel (playerOf w).
Proof. unfold spawn. by destruct (_ =? 0). Qed.

Lemma decayRecoil_body w :
  Player.pos (playerOf (onState decayRecoil w)) = Player.pos (playerOf w)
  /\ Player.vel (playerOf (onState decayRecoil w)) = Player.vel (playerOf w).
Proof. unfold playerOf, onState, decayRecoil. cbn. by destruct (nltb _ _). Qed.

Lemma draw_body w :
  Player.pos (playerOf (draw host w)) = Player.pos (playerOf w)
  /\ Player.vel (playerOf (draw host w)) = Player.vel (playerOf w).
Proof. unfold draw. by destruct (nltb _ _). Qed.

(* After a running frame the player's position and velocity are those
   computed by the movement step. *)
Lemma loop_body w :
  running w = true ->
  let gs := movePlayer (World.width w) (World.height w) (World.gameState w) in
  Player.pos (playerOf (loop host w)) = Player.pos (GameState.player gs)
  /\ Player.vel (playerOf (loop host w)) = Player.vel (GameState.player gs).
Proof.
  intros Hr gs. rewrite (loop_running host w Hr), update_settle.
  destruct (draw_body (settle host (spawn host (onState decayRecoil
                         (shoot host (steer host w)))))) as [-> ->].
  destruct (settle_rest host (spawn host (onState decayRecoil
                                (shoot host (steer host w))))) as [-> -> _].
  destruct (spawn_body (onState decayRecoil (shoot host (steer host w)))) as [-> ->].
  destruct (decayRecoil_body (shoot host (steer host w))) as [-> ->].
  destruct (shoot_body (steer host w)) as [-> ->].
  done.
Qed.

Lemma update_drawn w : World.drawn (update host w) = World.drawn w.
Proof.
  rewrite update_settle.
  rewrite (rest_drawn _ _ (settle_rest host _)).
  assert (Hspawn : forall u, World.drawn (spawn host u) = World.drawn u)
    by (intros u; unfold spawn; by destruct (_ =? 0)).
  assert (Hshoot : forall u, World.drawn (shoot host u) = World.drawn u).
  { intros u. rewrite shoot_fires. destruct (fires u); [| done].
    unfold fire. by rewrite createParticle_burst. }
  assert (Hon : forall f (u : World A), World.drawn (onState f u) = World.drawn u)
    by done.
  rewrite Hspawn, Hon, Hshoot. unfold steer. by rewrite Hon.
Qed.

Lemma session_induction (P : World A -> Prop) :
  (forall wd ht, P (mount wd ht)) ->
  (forall w e, P w -> P (step host w e)) ->
  forall es wd ht, P (run host es (mount wd ht)).
Proof.
  intros Hmount Hstep es wd ht.
  assert (Hrun : forall es w, P w -> P (run host es w)).
  { clear es. induction es as [| e es IH]; intros w Hw; [done |].
    cbn. by apply IH, Hstep. }
  apply Hrun, Hmount.
Qed.

(* ent.pos.x < 0 || ent.pos.x > canvas.width || ent.pos.y < 0 || ... *)
Definition outside (wd ht : Z) (p : Vector2 A) : bool :=
  nltb (Vector2.x p) (ofZ 0) || nltb (ofZ wd) (Vector2.x p)
  || nltb (Vector2.y p) (ofZ 0) || nltb (ofZ ht) (Vector2.y p).

(** X13. The frame's update of a bullet in slot [i] adds the velocity to
    the position, once, and marks the bullet for removal if the new
    position is outside the canvas; the bullet's velocity and the other
    slots, the particles, the player and the score are left as they are. *)
Theorem a_bullet_flies_straight (i : nat) (bullet : Entity A) (w : World A) :
  entitiesOf w !! i = Some bullet ->
  isBULLET (Entity.type bullet) = true ->
  let w' := updateEntity host i w in
  let pos' := vecAdd (Entity.pos bullet) (Entity.vel bullet) in
  entitiesOf w' !! i
  = Some (Entity.with_markedForDeletion
            (outside (World.width w) (World.height w) pos'
             || Entity.markedForDeletion bullet)
            (Entity.with_pos pos' bullet))
  /\ (forall k, k <> i -> entitiesOf w' !! k = entitiesOf w !! k)
  /\ length (entitiesOf w') = length (entitiesOf w)
  /\ particlesOf w' = particlesOf w
  /\ playerOf w' = playerOf w
  /\ points w' = points w
  /\ World.randomCalls w' = World.randomCalls w.
Proof.
  intros Hi Hb w' pos'. subst w'. unfold updateEntity. fold (entitiesOf w).
  rewrite Hi, Hb. unfold entitiesOf, particlesOf, playerOf, points in *. cbn.
  pose proof (lookup_lt_Some _ _ _ Hi) as Hlen.
  split_and!; try done.
  - rewrite list_lookup_insert_eq by done. unfold outside. cbn.
    by destruct (_ || _).
  - intros k Hk. by rewrite list_lookup_insert_ne.
  - by rewrite length_insert.
Qed.

(** X14. [createParticle] appends exactly [count] particles to the
    particle list, each unmarked, of the given colour and at the given
    position, draws six random numbers per particle, and changes nothing
    else; with a count of 0 it does nothing at all. *)
Theorem createParticle_appends_one_burst
    (pos : Vector2 A) (count : nat) (color : string) (speed lifeBase : A)
    (w : World A) :
  let w' := createParticle host pos count color speed lifeBase w in
  (exists new,
     particlesOf w' = particlesOf w ++ new
     /\ length new = count
     /\ Forall (fun p => Entity.type p = PARTICLE /\ Entity.pos p = pos
                         /\ Entity.color p = color
                         /\ Entity.maxLife p = nadd lifeBase (ofZ 30)
                         /\ Entity.markedForDeletion p = false) new)
  /\ World.randomCalls w' = (World.randomCalls w + 6 * count)%nat
  /\ GameState.with_particles (particlesOf w) (World.gameState w') = World.gameState w
  /\ World.hud w' = World.hud w
  /\ World.drawn w' = World.drawn w
  /\ createParticle host pos 0 color speed lifeBase w = w.
Proof.
  intros w'. subst w'. rewrite createParticle_burst. split_and!; try done.
  - exists (burst host pos count color speed lifeBase (World.randomCalls w)).
    split_and!; [done | apply burst_length |].
    generalize (World.randomCalls w). induction count as [| n IH]; intros k; cbn;
      [done |]. apply Forall_cons. split; [done | apply IH].
  - unfold particlesOf. by destruct w as [[] ? ? ? ? ?].
Qed.

(** X15. A running frame draws exactly one scene, and the scene shows the
    state the frame ends in: its entities, particles and player are those
    of the new state, and it carries the red low-health overlay exactly
    when the new health is below 30.  In a session this is also when the
    HUD's health bar is red. *)
Theorem a_frame_draws_what_it_computed (es : list (Event (A := A))) (wd ht : Z) :
  let w := run host es (mount wd ht) in
  running w = true ->
  let w' := loop host w in
  exists scene,
    World.drawn w' = World.drawn w ++ [scene]
    /\ Scene.entities _ scene = entitiesOf w'
    /\ Scene.particles _ scene = particlesOf w'
    /\ Scene.player _ scene = playerOf w'
    /\ Scene.lowHealthOverlay _ scene = (health w' <? 30)
    /\ Scene.lowHealthOverlay _ scene = (Hud.health (World.hud w') <? 30).
Proof.
  intros w Hr w'.
  assert (Hm : Hud.health (World.hud w') = health w').
  { pose proof (session_mirrored host (es ++ [Frame]) wd ht) as [_ Hh _ _ _ _].
    unfold run in Hh. rewrite List.fold_left_app in Hh. exact Hh. }
  rewrite Hm. subst w'. rewrite (loop_running host w Hr).
  rewrite <- (update_drawn w).
  generalize (update host w) as u. intros u. unfold draw.
  destruct (nltb _ _); eexists; split_and!; reflexivity.
Qed.

End Motion.

(** ** The game over the real numbers *)

Section OverTheReals.

Local Open Scope R_scope.

Lemma ltb_true (a b : R) : Exact.ltb a b = true <-> a < b.
Proof. unfold Exact.ltb. destruct (Rlt_dec a b); split; intros; (done || lra). Qed.

Lemma ltb_false (a b : R) : Exact.ltb a b = false <-> b <= a.
Proof. unfold Exact.ltb. destruct (Rlt_dec a b); split; intros; (done || lra). Qed.

Lemma leb_true (a b : R) : Exact.leb a b = true <-> a <= b.
Proof. unfold Exact.leb. destruct (Rle_dec a b); split; intros; (done || lra). Qed.

Lemma leb_false (a b : R) : Exact.leb a b = false <-> b < a.
Proof. unfold Exact.leb. destruct (Rle_dec a b); split; intros; (done || lra). Qed.

Lemma eqb_true (a b : R) : Exact.eqb a b = true <-> a = b.
Proof. unfold Exact.eqb. destruct (Req_dec_T a b); split; intros; (done || lra). Qed.

Lemma vecNorm_zero_real :
  vecNorm (Vector2.mk 0 0) = Vector2.mk 0 0 :> Vector2 R.
Proof.
  unfold vecNorm, vecLen; simpl. unfold Exact.eqb.
  replace (0 * 0 + 0 * 0) with 0 by ring. rewrite sqrt_0.
  destruct (Req_dec_T 0 0); [reflexivity | contradiction].
Qed.

Lemma vecLen_nonneg (v : Vector2 R) : 0 <= vecLen v.
Proof. unfold vecLen; simpl. apply sqrt_pos. Qed.

Lemma vecLen_zero (v : Vector2 R) : vecLen v = 0 <-> v = Vector2.mk 0 0.
Proof.
  split.
  - intros Hlen. destruct (Req_dec_T (Vector2.x v) 0) as [Hx | Hx];
      [destruct (Req_dec_T (Vector2.y v) 0) as [Hy | Hy] |].
    + destruct v as [a b]; simpl in *. by subst.
    + assert (v <> Vector2.mk 0 0) as Hv by (intros ->; simpl in Hy; lra).
      pose proof (vecLen_pos v Hv). lra.
    + assert (v <> Vector2.mk 0 0) as Hv by (intros ->; simpl in Hx; lra).
      pose proof (vecLen_pos v Hv). lra.
  - intros ->. unfold vecLen; simpl. replace (0 * 0 + 0 * 0) with 0 by ring.
    apply sqrt_0.
Qed.

Lemma vecLen_scale (v : Vector2 R) (s : R) :
  vecLen (vecMult v s) = Rabs s * vecLen v.
Proof.
  unfold vecLen, vecMult; simpl.
  replace (Vector2.x v * s * (Vector2.x v * s) + Vector2.y v * s * (Vector2.y v * s))
    with (Rsqr s * (Vector2.x v * Vector2.x v + Vector2.y v * Vector2.y v))
    by (unfold Rsqr; ring).
  rewrite sqrt_mult_alt by apply Rle_0_sqr.
  by rewrite sqrt_Rsqr_abs.
Qed.

Lemma component_le_len (a b : R) : Rabs a <= R_sqrt.sqrt (a * a + b * b).
Proof.
  rewrite <- sqrt_Rsqr_abs. apply sqrt_le_1_alt. unfold Rsqr.
  pose proof (Rle_0_sqr b) as Hb. unfold Rsqr in Hb. lra.
Qed.

Lemma vecNorm_components (v : Vector2 R) :
  Rabs (Vector2.x (vecNorm v)) <= 1 /\ Rabs (Vector2.y (vecNorm v)) <= 1.
Proof.
  destruct (Req_dec_T (vecLen v) 0) as [Hz | Hnz].
  - apply vecLen_zero in Hz as ->.
    rewrite vecNorm_zero_real. simpl. rewrite Rabs_R0. lra.
  - assert (Hv : v <> Vector2.mk 0 0) by (intros Hv; by apply vecLen_zero in Hv).
    rewrite (vecNorm_nonzero v Hv). cbn [Vector2.x Vector2.y].
    pose proof (vecLen_pos v Hv) as Hlen.
    assert (Hx : Rabs (Vector2.x v) <= vecLen v) by apply component_le_len.
    assert (Hy : Rabs (Vector2.y v) <= vecLen v)
      by (unfold vecLen; simpl; rewrite Rplus_comm; apply component_le_len).
    set (l := vecLen v) in *.
    unfold Rdiv. rewrite !Rabs_mult, (Rabs_inv l), (Rabs_pos_eq l) by lra.
    split; apply (Rmult_le_reg_r l); try done;
      rewrite Rmult_assoc, Rinv_l, Rmult_1_r, Rmult_1_l by lra; done.
Qed.

Lemma vecNorm_scaled (v : Vector2 R) :
  v <> Vector2.mk 0 0 -> vecNorm v = vecMult v (/ vecLen v).
Proof. intros Hv. by rewrite (vecNorm_nonzero v Hv). Qed.

Lemma vecNorm_unit_real (v : Vector2 R) :
  v <> Vector2.mk 0 0 -> vecLen (vecNorm v) = 1.
Proof.
  intros Hv. pose proof (vecLen_pos v Hv) as Hlen.
  rewrite (vecNorm_scaled v Hv), vecLen_scale.
  rewrite Rabs_inv, Rabs_pos_eq by lra. field. lra.
Qed.

(** X10. Over the reals the vector helpers obey the laws of the plane:
    adding and subtracting the same vector cancel, scaling multiplies the
    length by the absolute value of the factor, only the zero vector has
    length 0, each component of a normalised vector is at most 1 in
    absolute value, and normalising twice is normalising once. *)
Theorem vector_helpers_over_the_reals :
  (forall a b : Vector2 R,
     vecSub (vecAdd a b) b = a /\ vecAdd (vecSub a b) b = a)
  /\ (forall (v : Vector2 R) s, vecLen (vecMult v s) = Rabs s * vecLen v)
  /\ (forall v : Vector2 R, 0 <= vecLen v /\ (vecLen v = 0 <-> v = Vector2.mk 0 0))
  /\ (forall v : Vector2 R,
        Rabs (Vector2.x (vecNorm v)) <= 1 /\ Rabs (Vector2.y (vecNorm v)) <= 1)
  /\ (forall v : Vector2 R, vecNorm (vecNorm v) = vecNorm v).
Proof.
  split_and!.
  - intros [a1 a2] [b1 b2]. unfold vecSub, vecAdd; simpl. split; f_equal; ring.
  - apply vecLen_scale.
  - intros v. split; [apply vecLen_nonneg | apply vecLen_zero].
  - apply vecNorm_components.
  - intros v. destruct (Req_dec_T (vecLen v) 0) as [Hz | Hnz].
    + apply vecLen_zero in Hz as ->. by rewrite !vecNorm_zero_real.
    + assert (Hv : v <> Vector2.mk 0 0) by (intros Hv; by apply vecLen_zero in Hv).
      pose proof (vecNorm_unit_real v Hv) as H1.
      assert (Hn : vecNorm v <> Vector2.mk 0 0).
      { intros Hn. apply vecLen_zero in Hn. lra. }
      rewrite (vecNorm_nonzero (vecNorm v) Hn), H1.
      destruct (vecNorm v) as [a b]. simpl. f_equal; field.
Qed.

(** *** Camera trauma *)

Lemma shaken_bounds (amount : Z) (s : R) :
  (0 <= amount)%Z -> 0 <= s <= 25 -> 0 <= shaken amount s <= 25.
Proof.
  intros Ha Hs. apply IZR_le in Ha. unfold shaken; simpl.
  unfold Rmin. destruct (Rle_dec _ _); lra.
Qed.

Lemma decayed_bounds (s : R) :
  0 <= s <= 25 ->
  (decayed s = 0 \/ 1 / 2 <= decayed s) /\ 0 <= decayed s <= 9 / 10 * s.
Proof.
  intros Hs. unfold decayed, lit; simpl. unfold Exact.ltb.
  destruct (Rlt_dec _ _); lra.
Qed.

Lemma session_trauma (host : Host R) es wd ht :
  0 <= shakeOf (run host es (mount wd ht)) <= 25.
Proof.
  apply (session_shake host (fun s => 0 <= s <= 25)).
  - intros s Hs. split_and!; by apply shaken_bounds.
  - intros s Hs. destruct (decayed_bounds s Hs). lra.
  - simpl. lra.
Qed.

(* The trauma after one drawing step. *)
Definition settled (s : R) : R := if Exact.ltb 0 s then decayed s else s.

Lemma draws_shake (host : Host R) n : forall w,
  shakeOf (Nat.iter n (draw host) w) = Nat.iter n settled (shakeOf w).
Proof.
  induction n as [| n IH]; intros w; [done |].
  change (Nat.iter (S n) (draw host) w) with (draw host (Nat.iter n (draw host) w)).
  change (Nat.iter (S n) settled (shakeOf w)) with (settled (Nat.iter n settled (shakeOf w))).
  by rewrite draw_shake, IH.
Qed.

Lemma settled_bounds (s : R) :
  0 <= s <= 25 ->
  (settled s = 0 \/ 1 / 2 <= settled s) /\ 0 <= settled s <= 9 / 10 * s.
Proof.
  intros Hs. unfold settled, Exact.ltb. destruct (Rlt_dec 0 s).
  - by apply decayed_bounds.
  - assert (s = 0) as -> by lra. lra.
Qed.

Lemma settled_iter (s : R) n :
  0 <= s <= 25 -> 0 <= Nat.iter n settled s <= (9 / 10) ^ n * s.
Proof.
  intros Hs. induction n as [| n IH]; [simpl; lra |].
  change (Nat.iter (S n) settled s) with (settled (Nat.iter n settled s)).
  assert (Hp : 0 <= (9 / 10) ^ n <= 1).
  { split; [apply pow_le; lra |]. apply pow_incr_1 || idtac.
    clear IH. induction n as [| n IHn]; simpl; [lra |].
    assert (0 <= (9 / 10) ^ n) by (apply pow_le; lra). nra. }
  destruct (settled_bounds (Nat.iter n settled s)) as [_ Hb]; [nra |].
  simpl. nra.
Qed.

(** X11. Over the reals the camera trauma stays between 0 and 25 in every
    state of a session, and after a running frame it is either 0 or at
    least 0.5. *)
Theorem trauma_stays_in_range (host : Host R) :
  (forall es wd ht, 0 <= shakeOf (run host es (mount wd ht)) <= 25)
  /\ (forall es wd ht,
        let w := run host es (mount wd ht) in
        running w = true ->
        shakeOf (loop host w) = 0 \/ 1 / 2 <= shakeOf (loop host w)).
Proof.
  split; [apply session_trauma |].
  intros es wd ht w Hr.
  assert (Hu : 0 <= shakeOf (update host w) <= 25).
  { apply (update_shake host (fun s => 0 <= s <= 25)); [| apply session_trauma].
    intros s Hs. split_and!; by apply shaken_bounds. }
  rewrite (loop_running host w Hr), draw_shake.
  destruct (nltb _ _) eqn:E.
  - by destruct (decayed_bounds _ Hu).
  - apply ltb_false in E. simpl in E. left. lra.
Qed.

(** X12. Over the reals, 38 drawing steps in a row bring any trauma
    between 0 and 25 down to exactly 0, and it then stays 0: a shake that
    is not renewed dies out. *)
Theorem trauma_dies_out (host : Host R) (w : World R) (more : nat) :
  0 <= shakeOf w <= 25 ->
  shakeOf (Nat.iter (38 + more) (draw host) w) = 0.
Proof.
  intros Hs. rewrite draws_shake.
  assert (H38 : Nat.iter 38 settled (shakeOf w) = 0).
  { pose proof (settled_iter (shakeOf w) 38 Hs) as Hb.
    pose proof (settled_iter (shakeOf w) 37 Hs) as Hb37.
    change (Nat.iter 38 settled (shakeOf w))
      with (settled (Nat.iter 37 settled (shakeOf w))) in *.
    assert (H37 : 0 <= Nat.iter 37 settled (shakeOf w) <= 25).
    { split; [lra |].
      assert ((9 / 10) ^ 37 <= 1) by (simpl; lra). nra. }
    destruct (settled_bounds _ H37) as [[Hz | Hhalf] _]; [done |].
    assert (Hsmall : (9 / 10) ^ 38 * 25 < 1 / 2) by (simpl; lra).
    assert (0 <= (9 / 10) ^ 38) by (apply pow_le; lra). nra. }
  rewrite Nat.add_comm.
  induction more as [| m IH]; [done |].
  change (Nat.iter (S m + 38) settled (shakeOf w))
    with (settled (Nat.iter (m + 38) settled (shakeOf w))).
  rewrite IH. unfold settled, Exact.ltb. destruct (Rlt_dec 0 0); [lra | done].
Qed.

(** *** Spawning *)

(** X16. Over the reals the body of the spawning branch appends exactly
    one enemy and draws four random numbers.  The enemy is unmarked, at
    rest, at full health with the constants of its kind, and 50 pixels
    outside the canvas: left of it, right of it, above it or below it. *)
Theorem enemies_spawn_off_screen (host : Host R) (w : World R) :
  exists z,
    entitiesOf (spawnZombie host w) = entitiesOf w ++ [z]
    /\ World.randomCalls (spawnZombie host w) = (World.randomCalls w + 4)%nat
    /\ startsWithZOMBIE (Entity.type z) = true
    /\ shaped z
    /\ Entity.vel z = Vector2.mk 0 0
    /\ Entity.life z = Entity.maxLife z
    /\ Entity.markedForDeletion z = false
    /\ (Vector2.x (Entity.pos z) = -50
        \/ Vector2.x (Entity.pos z) = IZR (World.width w) + 50
        \/ Vector2.y (Entity.pos z) = -50
        \/ Vector2.y (Entity.pos z) = IZR (World.height w) + 50).
Proof.
  unfold spawnZombie, entitiesOf. cbn -[newZombie nfloor nltb].
  eexists. split; [reflexivity |]. split; [done |].
  unfold newZombie, shaped.
  destruct (nltb _ _); cbn [Entity.type Entity.vel Entity.life Entity.maxLife
    Entity.markedForDeletion Entity.pos Entity.radius Entity.color startsWithZOMBIE];
    (split_and!; try done);
    repeat destruct (Exact.eqb _ _); cbn; auto.
Qed.

(** *** The player's body *)

Lemma clamp_bounds (lo hi x : R) :
  lo <= Rmax lo (Rmin hi x) /\ (lo <= hi -> Rmax lo (Rmin hi x) <= hi).
Proof.
  split; [apply Rmax_l |]. intros Hle.
  apply Rmax_lub; [done | apply Rmin_l].
Qed.

Lemma movePlayer_pos wd ht (gs : GameState R) :
  exists px py,
    Player.pos (GameState.player (movePlayer wd ht gs))
    = Vector2.mk (Rmax 20 (Rmin (IZR wd - 20) px)) (Rmax 20 (Rmin (IZR ht - 20) py)).
Proof. unfold movePlayer. cbv zeta. cbn. by eexists _, _. Qed.

(** X17. Over the reals the player is inside the margin after every
    running frame: both coordinates are at least 20, and at most the
    canvas size minus 20 whenever the canvas is at least 40 wide or
    high. *)
Theorem the_player_stays_inside (host : Host R) (w : World R) :
  running w = true ->
  let p := Player.pos (playerOf (loop host w)) in
  20 <= Vector2.x p /\ 20 <= Vector2.y p
  /\ ((40 <= World.width w)%Z -> Vector2.x p <= IZR (World.width w) - 20)
  /\ ((40 <= World.height w)%Z -> Vector2.y p <= IZR (World.height w) - 20).
Proof.
  intros Hr p. subst p. destruct (loop_body host w Hr) as [-> _].
  destruct (movePlayer_pos (World.width w) (World.height w) (World.gameState w))
    as (px & py & ->). cbn [Vector2.x Vector2.y].
  split_and!.
  - apply clamp_bounds.
  - apply clamp_bounds.
  - intros Hw. apply IZR_le in Hw. apply clamp_bounds. lra.
  - intros Hh. apply IZR_le in Hh. apply clamp_bounds. lra.
Qed.

Lemma movePlayer_vel wd ht (gs : GameState R) :
  exists m : Vector2 R,
    Player.vel (GameState.player (movePlayer wd ht gs))
    = vecMult (vecAdd (Player.vel (GameState.player gs))
                      (vecMult (vecNorm m) (8 / 10))) (9 / 10).
Proof. unfold movePlayer. cbv zeta. cbn -[vecNorm vecMult vecAdd]. by eexists. Qed.

Lemma Rabs_bound (a b : R) : Rabs a <= b <-> - b <= a <= b.
Proof. unfold Rabs. destruct (Rcase_abs a); split; lra. Qed.

Definition slow (v : Vector2 R) : Prop :=
  Rabs (Vector2.x v) <= 36 / 5 /\ Rabs (Vector2.y v) <= 36 / 5.

Lemma movePlayer_slow wd ht (gs : GameState R) :
  slow (Player.vel (GameState.player gs)) ->
  slow (Player.vel (GameState.player (movePlayer wd ht gs))).
Proof.
  intros [Hx Hy]. destruct (movePlayer_vel wd ht gs) as (m & ->).
  destruct (vecNorm_components m) as [Hmx Hmy].
  destruct (vecNorm m) as [mx my], (Player.vel (GameState.player gs)) as [vx vy].
  unfold slow, vecMult, vecAdd in *; cbn in *.
  rewrite !Rabs_bound in *. lra.
Qed.

(** X18. Over the reals friction caps the player's speed: in every state
    of a session each component of the velocity is at most 7.2 in
    absolute value, the speed at which the loss to friction equals the
    acceleration. *)
Theorem the_player_has_a_top_speed (host : Host R) es wd ht :
  let v := Player.vel (playerOf (run host es (mount wd ht))) in
  Rabs (Vector2.x v) <= 36 / 5 /\ Rabs (Vector2.y v) <= 36 / 5.
Proof.
  apply (session_induction host (fun w => slow (Player.vel (playerOf w)))).
  - intros wd0 ht0. unfold slow, mount, handleResize, playerOf. cbn.
    rewrite Rabs_R0. lra.
  - intros w e Hw. destruct e; cbn; try done.
    + unfold handleResize, playerOf in *. cbn. by destruct (_ =? 0)%Z.
    + destruct (running w) eqn:Hr.
      * destruct (loop_body host w Hr) as [_ ->]. by apply movePlayer_slow.
      * unfold playerOf in *. by rewrite (loop_idle_gameState host w Hr).
Qed.

(** *** Health of enemies and life of particles *)

Definition healthy (e : Entity R) : Prop :=
  startsWithZOMBIE (Entity.type e) = true ->
  Entity.markedForDeletion e = false ->
  0 < Entity.life e <= Entity.maxLife e.

Lemma healthy_stable : stable healthy.
Proof.
  split.
  - intros e p He. exact He.
  - intros e v He. exact He.
  - intros e a He. exact He.
  - intros e Hb _ Hz. cbn in Hz. by destruct (Entity.type e).
  - intros b e Hz Hm He. specialize (He Hz Hm).
    unfold lethal. destruct (nleb _ _) eqn:E.
    + intros _ Hmark. cbn in Hmark. done.
    + apply leb_false in E. unfold healthy, struck. cbn in *. intros _ _. lra.
  - intros ident pos vel angle Hz. cbn in Hz. done.
  - intros ident [] pos _ _; cbn; lra.
Qed.

(** X19. Over the reals every enemy in a state of a session has positive
    health, at most the full health of its kind: an enemy whose health is
    used up does not outlive the frame of the hit. *)
Theorem enemies_in_play_have_health (host : Host R) es wd ht :
  Forall (fun e => startsWithZOMBIE (Entity.type e) = true ->
                   0 < Entity.life e <= Entity.maxLife e)
         (entitiesOf (run host es (mount wd ht))).
Proof.
  pose proof (session_stable host healthy healthy_stable es wd ht) as Hh.
  destruct (session_swept host es wd ht) as [Hu _].
  apply Forall_lookup. intros i e Hi Hz.
  apply (Forall_lookup_1 _ _ _ _ Hh Hi Hz), (Forall_lookup_1 _ _ _ _ Hu Hi).
Qed.

Definition fading (p : Entity R) : Prop :=
  (Entity.markedForDeletion p = false -> 0 < Entity.life p)
  /\ Entity.life p < Entity.maxLife p.

(** X20. If [Math.random] answers in [0, 1), as it must, then over the
    reals every particle in a state of a session has a remaining life
    that is positive and below its maximal life, so the opacity it is
    drawn with, life / maxLife, lies strictly between 0 and 1. *)
Theorem particles_fade (host : Host R) es wd ht :
  (forall k, 0 <= Math_random host k < 1) ->
  Forall (fun p => 0 < Entity.life p < Entity.maxLife p
                   /\ 0 < Entity.life p / Entity.maxLife p < 1)
         (particlesOf (run host es (mount wd ht))).
Proof.
  intros Hrnd.
  assert (Hf : Forall fading (particlesOf (run host es (mount wd ht)))).
  { apply session_particles.
    - intros pos color speed lifeBase k Hb. pose proof (Hrnd (k + 4)%nat) as Hr.
      unfold fading, newParticle. cbn.
      destruct Hb as [-> | [-> | ->]]; cbn; split; intros; lra.
    - intros p [Hl Hm]. unfold updateParticle, fading. cbn.
      destruct (Exact.leb _ _) eqn:E; cbn; split; try done; try lra.
      apply leb_false in E. intros _. lra. }
  destruct (session_swept host es wd ht) as [_ Hu].
  apply Forall_lookup. intros i p Hi.
  destruct (Forall_lookup_1 _ _ _ _ Hf Hi) as [Hpos Hmax].
  specialize (Hpos (Forall_lookup_1 _ _ _ _ Hu Hi)).
  split; [lra |]. split.
  - apply Rdiv_lt_0_compat; lra.
  - apply (Rmult_lt_reg_r (Entity.maxLife p)); [lra |].
    unfold Rdiv. rewrite Rmult_assoc, Rinv_l, Rmult_1_r, Rmult_1_l by lra. lra.
Qed.

(** *** Pursuit *)

Lemma separationFrom_alone {A} `{Number A} (i : nat) (ent : Entity A) others :
  forall j separation,
    (forall k e, others !! k = Some e -> (j + k)%nat <> i ->
                 startsWithZOMBIE (Entity.type e) = false) ->
    separationFrom i ent j others separation = separation.
Proof.
  induction others as [| other rest IH]; intros j separation Halone; [done |].
  cbn [separationFrom].
  assert (Hskip : bool_decide (j <> i) && startsWithZOMBIE (Entity.type other) = false).
  { destruct (decide (j = i)) as [-> | Hne].
    - by rewrite bool_decide_eq_false_2 by (intros Hc; by apply Hc).
    - rewrite (Halone 0%nat other eq_refl) by lia. apply andb_false_r. }
  rewrite Hskip. apply IH. intros k e Hk Hne.
  apply (Halone (S k) e Hk). lia.
Qed.

Lemma step_towards (pos p : Vector2 R) (t : R) :
  0 < vecLen (vecSub p pos) ->
  vecLen (vecSub (vecAdd pos (vecMult (vecNorm (vecSub p pos)) t)) p)
  = Rabs (vecLen (vecSub p pos) - t).
Proof.
  intros Hd. set (d := vecLen (vecSub p pos)) in *.
  assert (Hv : vecSub p pos <> Vector2.mk 0 0).
  { intros Hv. apply vecLen_zero in Hv. fold d in Hv. lra. }
  rewrite (vecNorm_scaled _ Hv). fold d.
  replace (vecSub (vecAdd pos (vecMult (vecMult (vecSub p pos) (/ d)) t)) p)
    with (vecMult (vecSub p pos) (t / d - 1)).
  - rewrite vecLen_scale. fold d.
    replace (t / d - 1) with (- (d - t) / d) by (field; lra).
    unfold Rdiv. rewrite Rabs_mult, Rabs_Ropp, Rabs_inv, (Rabs_pos_eq d) by lra.
    field. lra.
  - destruct pos as [a b], p as [c e]. unfold vecMult, vecSub, vecAdd; simpl.
    f_equal; field; lra.
Qed.

(** X21. Over the reals, an enemy with no other enemy in the list heads
    straight for the player: if it is further away than one step
    (0.8 times its speed), its update brings it exactly one step closer.
    If it is then still out of reach (its radius plus 15), nothing else
    happens; otherwise the player loses one health point and the enemy is
    thrown back 5 pixels. *)
Theorem a_lone_enemy_closes_in (host : Host R) (i : nat) (ent : Entity R)
    (w : World R) :
  entitiesOf w !! i = Some ent ->
  startsWithZOMBIE (Entity.type ent) = true ->
  (forall j e, j <> i -> entitiesOf w !! j = Some e ->
               startsWithZOMBIE (Entity.type e) = false) ->
  let p := Player.pos (playerOf w) in
  let d := vecLen (vecSub p (Entity.pos ent)) in
  let t := zombieSpeed (Entity.type ent) (points w) * (8 / 10) in
  0 < d -> t <= d ->
  let w' := updateEntity host i w in
  exists e',
    entitiesOf w' !! i = Some e'
    /\ (Entity.radius ent + 15 <= d - t ->
          vecLen (vecSub (Entity.pos e') p) = d - t
          /\ health w' = health w)
    /\ (d - t < Entity.radius ent + 15 ->
          vecLen (vecSub (Entity.pos e') p) = d - t + 5
          /\ health w' = (health w - 1)%Z).
Proof.
  intros Hi Hz Halone p d t Hd Ht w'.
  assert (Hb : isBULLET (Entity.type ent) = false)
    by (by destruct (Entity.type ent)).
  pose proof (lookup_lt_Some _ _ _ Hi) as Hlen.
  assert (Hsep : separationFrom i ent 0 (entitiesOf w) (Vector2.mk (ofZ 0) (ofZ 0))
                 = Vector2.mk 0 0).
  { apply separationFrom_alone. intros k e Hk Hne. by apply (Halone k). }
  set (dir := vecNorm (vecSub p (Entity.pos ent))).
  set (pos1 := vecAdd (Entity.pos ent) (vecMult dir t)).
  assert (Hvel : vecAdd (vecMult dir
                           (nmul (zombieSpeed (Entity.type ent)
                                    (GameState.score (World.gameState w)))
                                 (lit 8 10)))
                        (vecMult (Vector2.mk 0 0) (lit 5 10))
                 = vecMult dir t).
  { unfold t, points. destruct dir as [a b].
    unfold vecAdd, vecMult, lit; simpl. f_equal; ring. }
  assert (Hdist : vecLen (vecSub pos1 p) = d - t).
  { unfold pos1, dir. rewrite step_towards by done. fold d. apply Rabs_pos_eq. lra. }
  subst w'. unfold updateEntity. fold (entitiesOf w). rewrite Hi, Hb, Hz.
  cbv zeta. fold (entitiesOf w). rewrite Hsep.
  change (GameState.player (World.gameState w)) with (playerOf w). fold p. fold dir.
  rewrite Hvel.
  cbn [Entity.pos Entity.vel Entity.radius Entity.with_vel Entity.with_pos Entity.with_angle].
  fold pos1. rewrite Hdist.
  change (nadd (Entity.radius ent) (ofZ 15)) with (Entity.radius ent + 15).
  destruct (nltb (d - t) (Entity.radius ent + 15)) eqn:E.
  - apply ltb_true in E. unfold touchPlayer. cbv zeta.
    eexists. split.
    + unfold entitiesOf. destruct (_ <=? 0)%Z; cbn;
        rewrite list_lookup_insert_eq by (by rewrite ?length_insert); reflexivity.
    + split; [intros; lra |]. intros _. split.
      * cbn [Entity.pos Entity.vel Entity.with_vel Entity.with_pos].
        fold pos1.
        replace (vecAdd pos1 (vecMult dir (IZR (-5))))
          with (vecAdd (Entity.pos ent) (vecMult dir (t - 5))).
        -- unfold dir. rewrite step_towards by done. fold d.
           rewrite Rabs_pos_eq by lra. lra.
        -- unfold pos1. destruct dir as [a b], (Entity.pos ent) as [x0 y0].
           unfold vecAdd, vecMult; simpl. f_equal; ring.
      * unfold health. by destruct (_ <=? 0)%Z.
  - apply ltb_false in E. eexists. split.
    + unfold entitiesOf. cbn. rewrite list_lookup_insert_eq by done. reflexivity.
    + split; [| intros; lra]. intros _. split; [| done].
      cbn [Entity.pos]. done.
Qed.

(** *** Shooting *)

(** X22. Over the reals, with a cosine and a sine whose squares add up to
    1, the body of the shooting branch appends one bullet that flies at
    bullet speed, 18 pixels a frame, and starts 25 pixels from the player
    in the direction of its flight; the three particles of the muzzle
    flash start where the bullet starts. *)
Theorem a_shot_leaves_at_bullet_speed (host : Host R) (w : World R) :
  (forall a, Math_cos host a * Math_cos host a
             + Math_sin host a * Math_sin host a = 1) ->
  exists bullet flash,
    entitiesOf (fire host w) = entitiesOf w ++ [bullet]
    /\ particlesOf (fire host w) = particlesOf w ++ flash
    /\ Entity.type bullet = BULLET
    /\ Entity.angle bullet = Player.angle (playerOf w)
    /\ vecLen (Entity.vel bullet) = 18
    /\ Entity.pos bullet
       = vecAdd (Player.pos (playerOf w)) (vecMult (Entity.vel bullet) (25 / 18))
    /\ vecLen (vecSub (Entity.pos bullet) (Player.pos (playerOf w))) = 25
    /\ length flash = 3%nat
    /\ Forall (fun p => Entity.pos p = Entity.pos bullet) flash.
Proof.
  intros Hcs.
  set (a := Player.angle (playerOf w)
            + (Math_random host (World.randomCalls w) - 5 / 10) * (1 / 10)).
  set (vel := Vector2.mk (Math_cos host a * 18) (Math_sin host a * 18)).
  assert (Hlen : vecLen vel = 18).
  { change vel with (vecMult (Vector2.mk (Math_cos host a) (Math_sin host a)) 18).
    rewrite vecLen_scale. unfold vecLen; cbn.
    rewrite Hcs, sqrt_1, Rabs_pos_eq; lra. }
  assert (Hv : vel <> Vector2.mk 0 0).
  { intros E. apply vecLen_zero in E. lra. }
  assert (Hn : vecNorm vel = vecMult vel (/ 18)).
  { by rewrite (vecNorm_scaled vel Hv), Hlen. }
  set (muzzle := vecAdd (Player.pos (playerOf w)) (vecMult (vecNorm vel) 25)).
  exists (newBullet (Math_random host (World.randomCalls w + 1)) muzzle vel
            (Player.angle (playerOf w))),
         (burst host muzzle 3 MUZZLE_COLOR 2 10 (World.randomCalls w + 2)).
  unfold fire. rewrite createParticle_burst.
  split_and!.
  - reflexivity.
  - reflexivity.
  - reflexivity.
  - reflexivity.
  - exact Hlen.
  - cbn [Entity.pos Entity.vel newBullet]. unfold muzzle. rewrite Hn.
    destruct vel as [vx vy]. unfold vecAdd, vecMult; cbn. f_equal; field.
  - cbn [Entity.pos newBullet]. unfold muzzle.
    replace (vecSub (vecAdd (Player.pos (playerOf w)) (vecMult (vecNorm vel) 25))
                    (Player.pos (playerOf w)))
      with (vecMult (vecNorm vel) 25).
    + rewrite vecLen_scale, (vecNorm_unit_real vel Hv), Rabs_pos_eq; lra.
    + destruct (vecNorm vel) as [nx ny], (Player.pos (playerOf w)) as [px py].
      unfold vecSub, vecAdd, vecMult; cbn. f_equal; ring.
  - apply burst_length.
  - apply Forall_forall. intros p Hp.
    by destruct (burst_uniform host _ _ _ _ _ _ _ Hp) as (_ & -> & _).
Qed.

(** *** Recoil *)

Definition recoilOf (w : World R) : R := Player.recoil (playerOf w).

(* if (state.player.recoil > 0) state.player.recoil *= 0.8; *)
Definition eased (recoil : R) : R :=
  if Exact.ltb 0 recoil then recoil * (8 / 10) else recoil.

Lemma update_recoil (host : Host R) (w : World R) :
  recoilOf (update host w) = eased (if fires w then 6 else recoilOf w).
Proof.
  rewrite update_settle.
  unfold recoilOf. rewrite (rest_recoil _ _ (settle_rest host _)).
  assert (Hspawn : forall u, Player.recoil (playerOf (spawn host u))
                             = Player.recoil (playerOf u))
    by (intros u; unfold spawn; by destruct (_ =? 0)%Z).
  assert (Hdecay : forall u, Player.recoil (playerOf (onState decayRecoil u))
                             = eased (Player.recoil (playerOf u))).
  { intros u. unfold playerOf, onState, decayRecoil, eased. cbn.
    by destruct (Exact.ltb _ _). }
  assert (Hshoot : forall u, Player.recoil (playerOf (shoot host u))
                             = if fires u then 6 else Player.recoil (playerOf u)).
  { intros u. rewrite shoot_fires. destruct (fires u).
    - unfold fire. by rewrite createParticle_burst.
    - unfold playerOf, onState, coolDown. cbn. by destruct (0 <? _)%Z. }
  rewrite Hspawn, Hdecay, Hshoot. reflexivity.
Qed.

Lemma loop_recoil (host : Host R) (w : World R) :
  running w = true ->
  recoilOf (loop host w) = eased (if fires w then 6 else recoilOf w).
Proof.
  intros Hr. rewrite (loop_running host w Hr), <- (update_recoil host).
  unfold recoilOf, draw. by destruct (nltb _ _).
Qed.

Lemma eased_bounds (r : R) : 0 <= r <= 6 -> 0 <= eased r <= 24 / 5.
Proof.
  intros Hr. unfold eased, Exact.ltb. destruct (Rlt_dec 0 r); lra.
Qed.

(** X23. Over the reals the recoil of the gun is 4.8 after a running
    frame that fires, four fifths of what it was after a running frame
    that does not, and between 0 and 6 in every state of a session. *)
Theorem recoil_stays_in_range (host : Host R) :
  (forall w, running w = true -> fires w = true ->
             recoilOf (loop host w) = 24 / 5)
  /\ (forall w, running w = true -> fires w = false -> 0 <= recoilOf w ->
                recoilOf (loop host w) = recoilOf w * (8 / 10))
  /\ (forall es wd ht, 0 <= recoilOf (run host es (mount wd ht)) <= 6).
Proof.
  split_and!.
  - intros w Hr Hf. rewrite (loop_recoil host w Hr), Hf.
    unfold eased, Exact.ltb. destruct (Rlt_dec 0 6); lra.
  - intros w Hr Hf Hpos. rewrite (loop_recoil host w Hr), Hf.
    unfold eased, Exact.ltb. destruct (Rlt_dec 0 (recoilOf w)); lra.
  - apply (session_induction host (fun w => 0 <= recoilOf w <= 6)).
    + intros wd ht. unfold recoilOf, mount, handleResize. cbn. lra.
    + intros w e Hw. destruct e; cbn; try exact Hw.
      * unfold handleResize, recoilOf, playerOf in *. cbn.
        by destruct (_ =? 0)%Z.
      * destruct (running w) eqn:Hr.
        -- rewrite (loop_recoil host w Hr).
           assert (0 <= (if fires w then 6 else recoilOf w) <= 6)
             by (destruct (fires w); lra).
           pose proof (eased_bounds _ H). lra.
        -- rewrite (loop_stopped host w Hr). by destruct (_ <=? 0)%Z.
Qed.

End OverTheReals.

(** ** The mathematical host

    The functions of [Math] as functions on the reals, with [rnd] for
    [Math.random]. *)

Module Ideal.

Definition atan2 (y x : R) : R :=
  if Rlt_dec 0 x then atan (y / x)
  else if Rlt_dec x 0 then
         if Rle_dec 0 y then atan (y / x) + PI else atan (y / x) - PI
  else if Rlt_dec 0 y then PI / 2
  else if Rlt_dec y 0 then - PI / 2
  else 0%R.

Definition host (rnd : nat -> R) : Host R :=
  {| Math_PI := PI;
     Math_cos := cos;
     Math_sin := sin;
     Math_atan2 := atan2;
     Math_random := rnd |}.

End Ideal.

(** ** Instances

    The properties above that hold under a condition, applied to concrete
    states: two replays in binary64 arithmetic and four states over the
    reals. *)

Section Instances.

(** *** In binary64 arithmetic *)

(* A bullet 10 pixels from the right edge of an 800 by 600 canvas, flying
   right. *)
Definition leaving : World float := arena 100 [bulletAt 790 100 18].

Lemma a_bullet_flies_straight_witness :
  let host := Table.host (fun _ => 0%float) in
  let bullet := bulletAt 790 100 18 in
  let w := leaving in
  let w' := updateEntity host 0 w in
  let pos' := vecAdd (Entity.pos bullet) (Entity.vel bullet) in
  (entitiesOf w !! 0%nat = Some bullet
   /\ isBULLET (Entity.type bullet) = true
   /\ outside 800 600 pos' = true)
  /\ entitiesOf w' !! 0%nat
     = Some (Entity.with_markedForDeletion
               (outside (World.width w) (World.height w) pos'
                || Entity.markedForDeletion bullet)
               (Entity.with_pos pos' bullet))
  /\ (forall k, k <> 0%nat -> entitiesOf w' !! k = entitiesOf w !! k)
  /\ length (entitiesOf w') = length (entitiesOf w)
  /\ particlesOf w' = particlesOf w
  /\ playerOf w' = playerOf w
  /\ points w' = points w
  /\ World.randomCalls w' = World.randomCalls w.
Proof.
  exact (conj (conj eq_refl (conj eq_refl eq_refl))
           (a_bullet_flies_straight (Table.host (fun _ => 0%float)) 0
              (bulletAt 790 100 18) leaving eq_refl eq_refl)).
Defined.

Lemma a_frame_draws_what_it_computed_witness :
  let host := Table.host ambush in
  let w := run host (idle 100) (mount 800 600) in
  let w' := loop host w in
  running w = true
  /\ exists scene,
       World.drawn w' = World.drawn w ++ [scene]
       /\ Scene.entities _ scene = entitiesOf w'
       /\ Scene.particles _ scene = particlesOf w'
       /\ Scene.player _ scene = playerOf w'
       /\ Scene.lowHealthOverlay _ scene = (health w' <? 30)
       /\ Scene.lowHealthOverlay _ scene = (Hud.health (World.hud w') <? 30).
Proof.
  assert (Hr : running (run (Table.host ambush) (idle 100) (mount 800 600)) = true)
    by (vm_compute; reflexivity).
  exact (conj Hr
           (a_frame_draws_what_it_computed (Table.host ambush) (idle 100) 800 600 Hr)).
Defined.

(** *** Over the reals *)

(* The state at the start of a session in an 800 by 600 window, just
   after an enemy touched the player. *)
Definition shaking : World R :=
  let w := mount 800 600 in
  World.with_gameState (addTrauma (ofZ 10) (World.gameState w)) w.

Lemma trauma_dies_out_witness :
  let host := Ideal.host (fun _ => 0%R) in
  shakeOf shaking = 10%R
  /\ shakeOf (Nat.iter (38 + 0) (draw host) shaking) = 0%R.
Proof.
  assert (Hs : shakeOf shaking = 10%R).
  { cbn. unfold Rmin. destruct (Rle_dec _ _); lra. }
  refine (conj Hs (trauma_dies_out (Ideal.host (fun _ => 0%R)) shaking 0 _)).
  rewrite Hs. lra.
Defined.

Lemma the_player_stays_inside_witness :
  let host := Ideal.host (fun _ => 0%R) in
  let w := handleKeyDown "KeyA" (mount 800 600) in
  let p := Player.pos (playerOf (loop host w)) in
  running w = true
  /\ (20 <= Vector2.x p)%R /\ (20 <= Vector2.y p)%R
  /\ ((40 <= World.width w)%Z -> (Vector2.x p <= IZR (World.width w) - 20)%R)
  /\ ((40 <= World.height w)%Z -> (Vector2.y p <= IZR (World.height w) - 20)%R).
Proof.
  exact (conj eq_refl
           (the_player_stays_inside (Ideal.host (fun _ => 0%R))
              (handleKeyDown "KeyA" (mount 800 600)) eq_refl)).
Defined.

Lemma particles_fade_witness :
  let host := Ideal.host (fun _ => 0%R) in
  let w := run host [MouseDown; Frame] (mount 800 600) in
  (forall k, (0 <= Math_random host k < 1)%R)
  /\ Forall (fun p => (0 < Entity.life p < Entity.maxLife p)%R
                      /\ (0 < Entity.life p / Entity.maxLife p < 1)%R)
            (particlesOf w).
Proof.
  assert (Hrnd : forall k, (0 <= Math_random (Ideal.host (fun _ => 0%R)) k < 1)%R)
    by (intros k; simpl; lra).
  exact (conj Hrnd
           (particles_fade (Ideal.host (fun _ => 0%R)) [MouseDown; Frame] 800 600 Hrnd)).
Defined.

(* A fast enemy alone on the canvas, 300 pixels left of the player. *)
Definition stalker : Entity R := newZombie 0%R false (Vector2.mk 100 300)%R.
Definition hunted : World R :=
  let w := mount 800 600 in
  World.with_gameState (GameState.with_entities [stalker] (World.gameState w)) w.

Lemma hunted_distance :
  vecLen (vecSub (Player.pos (playerOf hunted)) (Entity.pos stalker)) = 300%R.
Proof.
  unfold vecLen, vecSub; cbn.
  replace (_ + _)%R with (300 * 300)%R by field.
  apply sqrt_square. lra.
Defined.

Lemma a_lone_enemy_closes_in_witness :
  let host := Ideal.host (fun _ => 0%R) in
  let p := Player.pos (playerOf hunted) in
  let d := vecLen (vecSub p (Entity.pos stalker)) in
  let t := (zombieSpeed (Entity.type stalker) (points hunted) * (8 / 10))%R in
  let w' := updateEntity host 0 hunted in
  (d = 300 /\ t = 2)%R
  /\ exists e',
       entitiesOf w' !! 0%nat = Some e'
       /\ ((Entity.radius stalker + 15 <= d - t)%R ->
             vecLen (vecSub (Entity.pos e') p) = (d - t)%R
             /\ health w' = health hunted)
       /\ ((d - t < Entity.radius stalker + 15)%R ->
             vecLen (vecSub (Entity.pos e') p) = (d - t + 5)%R
             /\ health w' = (health hunted - 1)%Z).
Proof.
  assert (Ht : (zombieSpeed (Entity.type stalker) (points hunted) * (8 / 10))%R = 2%R).
  { cbn. unfold lit; cbn. field. }
  assert (Halone : forall j e, j <> 0%nat -> entitiesOf hunted !! j = Some e ->
                               startsWithZOMBIE (Entity.type e) = false).
  { intros [| j] e Hj He; [done | discriminate He]. }
  refine (conj (conj hunted_distance Ht)
            (a_lone_enemy_closes_in (Ideal.host (fun _ => 0%R)) 0 stalker hunted
               eq_refl eq_refl Halone _ _)).
  - rewrite hunted_distance. lra.
  - rewrite Ht, hunted_distance. lra.
Defined.

Lemma a_shot_leaves_at_bullet_speed_witness :
  let host := Ideal.host (fun _ => 0%R) in
  let w := handleMouseDown (mount 800 600) in
  (forall a, Math_cos host a * Math_cos host a
             + Math_sin host a * Math_sin host a = 1)%R
  /\ exists bullet flash,
       entitiesOf (fire host w) = entitiesOf w ++ [bullet]
       /\ particlesOf (fire host w) = particlesOf w ++ flash
       /\ Entity.type bullet = BULLET
       /\ Entity.angle bullet = Player.angle (playerOf w)
       /\ vecLen (Entity.vel bullet) = 18%R
       /\ Entity.pos bullet
          = vecAdd (Player.pos (playerOf w)) (vecMult (Entity.vel bullet) (25 / 18)%R)
       /\ vecLen (vecSub (Entity.pos bullet) (Player.pos (playerOf w))) = 25%R
       /\ length flash = 3%nat
       /\ Forall (fun p => Entity.pos p = Entity.pos bullet) flash.
Proof.
  assert (Hcs : forall a,
             (Math_cos (Ideal.host (fun _ => 0%R)) a
              * Math_cos (Ideal.host (fun _ => 0%R)) a
              + Math_sin (Ideal.host (fun _ => 0%R)) a
                * Math_sin (Ideal.host (fun _ => 0%R)) a = 1)%R).
  { intros a. simpl. pose proof (sin2_cos2 a) as H. unfold Rsqr in H. lra. }
  exact (conj Hcs
           (a_shot_leaves_at_bullet_speed (Ideal.host (fun _ => 0%R))
              (handleMouseDown (mount 800 600)) Hcs)).
Defined.

End Instances.
